(** * Products and Categories admin screens: model and verification

    Shallow embedding of [client/src/pages/Products.tsx], which holds the two
    React components [Products] and [Categories].  Each component keeps its
    collection in a [useState] cell, derives the visible page with two
    [useMemo] computations ([filtered], [paged]) and reconciles the collection
    locally in the [then] callback of every axios call.

    Conventions of the embedding:
    - a component's [useState] cells are the fields of a [State] record and
      every setter is a function on that record;
    - an event handler maps the state it closes over to the state after the
      handler and the list of effects it started (axios calls, a confirm
      dialog); a promise is settled later, against the state of that moment,
      because the callbacks use the functional form [setRows (prev => ...)];
    - [uuidv4 ()] is an input of the handler that calls it, and so is the
      host's [String.prototype.toLowerCase] of the definitions that call it;
    - a JavaScript string is the [string] of the bytes of its UTF-8 encoding
      (for well-formed text, one string occurs in another as code units
      exactly when it does as bytes); integers that index arrays are [Z], and
      a [number] that is only stored (the price) is a binary64 [float]. *)

From Stdlib Require Import PrimFloat SpecFloat FloatOps Ascii String.
From stdpp Require Import base numbers option list strings pretty.

Local Open Scope string_scope.
Local Open Scope list_scope.
Local Open Scope Z_scope.

(** ** The JavaScript built-ins the components call *)

Module JS.

(** A string used as a condition: only the empty string is falsy. *)
Definition truthy (s : string) : bool :=
  match s with
  | EmptyString => false
  | String _ _ => true
  end.

(** *** Lower-casing

    [String.prototype.toLowerCase] belongs to the host: it follows the
    Unicode case tables, and its result for a letter can depend on the
    letters around it (a capital sigma at the end of a word becomes the final
    sigma).  The components are modelled for every such function: a
    definition that calls it takes it as its argument [toLowerCase].  What
    follows is what is known of it on ASCII text, and a function for the
    examples. *)

(** What lower-casing does to an ASCII character: A to Z become a to z. *)
Definition lower_ascii (c : ascii) : ascii :=
  let n := N_of_ascii c in
  if ((65 <=? n) && (n <=? 90))%N then ascii_of_N (n + 32) else c.

Fixpoint lowerAscii (s : string) : string :=
  match s with
  | EmptyString => EmptyString
  | String c s' => String (lower_ascii c) (lowerAscii s')
  end.

(** Text of ASCII characters only: every byte is below 128. *)
Fixpoint ascii_only (s : string) : bool :=
  match s with
  | EmptyString => true
  | String c s' => (N_of_ascii c <? 128)%N && ascii_only s'
  end.

(** A lower-casing function that does to ASCII text what the host's does. *)
Definition agrees_on_ascii (toLowerCase : string → string) : Prop :=
  ∀ s, ascii_only s = true → toLowerCase s = lowerAscii s.

Definition is_ascii_letter (c : ascii) : bool :=
  let n := N_of_ascii c in
  ((65 <=? n) && (n <=? 90) || (97 <=? n) && (n <=? 122))%N.

(** Does the text start with an ASCII letter or with one of the Greek letters
    alpha to omega, capital (bytes CE 91 to CE A9) or small (CE B1 to CE BF,
    CF 80 to CF 89)? *)
Definition starts_with_letter (s : string) : bool :=
  match s with
  | EmptyString => false
  | String c s1 =>
      let n := N_of_ascii c in
      if (n <? 128)%N then is_ascii_letter c
      else
        match s1 with
        | EmptyString => false
        | String d _ =>
            let m := N_of_ascii d in
            ((n =? 206) && (145 <=? m) && (m <=? 169) && negb (m =? 162)
             || (n =? 206) && (177 <=? m) && (m <=? 191)
             || (n =? 207) && (128 <=? m) && (m <=? 137))%N
        end
  end.

(** Lower-casing of the examples.  It does what the host's function does on
    text of ASCII characters only, and on text made of ASCII letters, digits
    and spaces and of the Greek letters alpha to omega: a capital sigma that
    follows a letter and is not followed by one becomes the final sigma
    (CF 82), every other capital sigma the plain one (CF 83).  Other text is
    not modelled: its bytes are kept.  [after_letter] tells whether the
    character before the text is a letter. *)
Fixpoint lower_basic (after_letter : bool) (s : string) : string :=
  match s with
  | EmptyString => EmptyString
  | String c s1 =>
      let n := N_of_ascii c in
      if (n <? 128)%N
      then String (lower_ascii c) (lower_basic (is_ascii_letter c) s1)
      else
        match s1 with
        | EmptyString => String c EmptyString
        | String d s2 =>
            let m := N_of_ascii d in
            if ((n =? 206) && (145 <=? m) && (m <=? 159))%N
            then String c (String (ascii_of_N (m + 32)) (lower_basic true s2))
            else if ((n =? 206) && (160 <=? m) && (m <=? 161))%N
            then String (ascii_of_N 207)
                   (String (ascii_of_N (m - 32)) (lower_basic true s2))
            else if ((n =? 206) && (m =? 163))%N
            then String (ascii_of_N 207)
                   (String
                      (ascii_of_N
                         (if after_letter && negb (starts_with_letter s2)
                          then 130 else 131))
                      (lower_basic true s2))
            else if ((n =? 206) && (164 <=? m) && (m <=? 169))%N
            then String (ascii_of_N 207)
                   (String (ascii_of_N (m - 32)) (lower_basic true s2))
            else if ((n =? 206) && (177 <=? m) && (m <=? 191)
                     || (n =? 207) && (128 <=? m) && (m <=? 137))%N
            then String c (String d (lower_basic true s2))
            else String c (lower_basic false s1)
        end
  end.

Definition toLowerCase_basic (s : string) : string := lower_basic false s.

(** [s.startsWith(t)], used by the scan below. *)
Fixpoint startsWith (s t : string) {struct t} : bool :=
  match t, s with
  | EmptyString, _ => true
  | String _ _, EmptyString => false
  | String b t', String a s' => bool_decide (a = b) && startsWith s' t'
  end.

(** [s.includes(t)]: try every start position from the left. *)
Fixpoint includes (s t : string) : bool :=
  startsWith s t ||
  match s with
  | EmptyString => false
  | String _ s' => includes s' t
  end.

(** [Array.prototype.slice(start, end)]: a negative bound counts from the
    end of the array, both bounds are clamped to [0, len], and an empty
    range yields the empty array. *)
Definition slice {A} (l : list A) (start end_ : Z) : list A :=
  let len := Z.of_nat (length l) in
  let k := if start <? 0 then Z.max (len + start) 0 else Z.min start len in
  let final := if end_ <? 0 then Z.max (len + end_) 0 else Z.min end_ len in
  take (Z.to_nat (final - k)) (drop (Z.to_nat k) l).

(** [Number(x)] applied to a value that already is a number. *)
Definition Number (x : float) : float := x.

(** How a promise ends. *)
Inductive Outcome (T : Type) : Type :=
  | Fulfilled (res : T)
  | Rejected (err : string).
Global Arguments Fulfilled {T} res.
Global Arguments Rejected {T} err.

End JS.

(** ** The [Products] component *)

Module Products.
Import JS.

(** [type ProductStatus = "active" | "inactive"] *)
Inductive ProductStatus : Type := active | inactive.

#[global] Instance ProductStatus_eq_dec : EqDecision ProductStatus.
Proof. solve_decision. Defined.

Record ProductRow : Type := {
  id : string;
  code : string;
  name : string;
  category : string;
  price : float;
  image : string;
  status : ProductStatus;
}.

(** [interface Category { id; name }], the options of the category select. *)
Module Category.
Record t : Type := { id : string; name : string }.
End Category.

Definition pageSize : Z := 5.

(** The [useState] cells.  [statusFilter] has type [ProductStatus | ""];
    [None] is the empty string, the only falsy value of that type. *)
Record State : Type := {
  rows : list ProductRow;
  categories : list Category.t;
  search : string;
  statusFilter : option ProductStatus;
  page : Z;
  open : bool;
  editing : option ProductRow;
  imageUrl : string;
}.

Definition init : State :=
  {| rows := []; categories := []; search := ""; statusFilter := None;
     page := 1; open := false; editing := None; imageUrl := "" |}.

Definition setRows (f : list ProductRow → list ProductRow) (st : State) : State :=
  {| rows := f (rows st); categories := categories st; search := search st;
     statusFilter := statusFilter st; page := page st; open := open st;
     editing := editing st; imageUrl := imageUrl st |}.

Definition setCategories (cs : list Category.t) (st : State) : State :=
  {| rows := rows st; categories := cs; search := search st;
     statusFilter := statusFilter st; page := page st; open := open st;
     editing := editing st; imageUrl := imageUrl st |}.

Definition setSearch (s : string) (st : State) : State :=
  {| rows := rows st; categories := categories st; search := s;
     statusFilter := statusFilter st; page := page st; open := open st;
     editing := editing st; imageUrl := imageUrl st |}.

Definition setStatusFilter (f : option ProductStatus) (st : State) : State :=
  {| rows := rows st; categories := categories st; search := search st;
     statusFilter := f; page := page st; open := open st;
     editing := editing st; imageUrl := imageUrl st |}.

Definition setPage (p : Z) (st : State) : State :=
  {| rows := rows st; categories := categories st; search := search st;
     statusFilter := statusFilter st; page := p; open := open st;
     editing := editing st; imageUrl := imageUrl st |}.

Definition setOpen (b : bool) (st : State) : State :=
  {| rows := rows st; categories := categories st; search := search st;
     statusFilter := statusFilter st; page := page st; open := b;
     editing := editing st; imageUrl := imageUrl st |}.

Definition setEditing (e : option ProductRow) (st : State) : State :=
  {| rows := rows st; categories := categories st; search := search st;
     statusFilter := statusFilter st; page := page st; open := open st;
     editing := e; imageUrl := imageUrl st |}.

Definition setImageUrl (u : string) (st : State) : State :=
  {| rows := rows st; categories := categories st; search := search st;
     statusFilter := statusFilter st; page := page st; open := open st;
     editing := editing st; imageUrl := u |}.

(** *** Derived view *)

(** [filtered]: the two chained [filter] calls of the first [useMemo];
    [toLowerCase] is the host's function. *)
Definition filtered (toLowerCase : string → string) (rows : list ProductRow)
    (search : string) (statusFilter : option ProductStatus) : list ProductRow :=
  filter
    (λ r, Is_true (match statusFilter with
                   | Some f => bool_decide (status r = f)
                   | None => true
                   end))
    (filter
       (λ r, Is_true (if truthy search
                      then includes (toLowerCase (name r +:+ code r)) (toLowerCase search)
                      else true))
       rows).

(** [paged]: the second [useMemo]. *)
Definition paged (filtered : list ProductRow) (page : Z) : list ProductRow :=
  let start := (page - 1) * pageSize in
  slice filtered start (start + pageSize).

(** *** Effects started by the handlers *)

Record File : Type := { file_name : string; file_content : string }.

Inductive Request : Type :=
  | Get (url : string)
  | Post (url : string) (data : ProductRow)
  | Put (url : string) (data : ProductRow)
  | Delete (url : string)
  | PostForm (url : string) (file : File) (upload_preset : string).

(** An axios call with its [then] callback; there is no [catch], so a
    rejected promise runs nothing. *)
Record Call : Type := {
  request : Request;
  response : Type;
  onFulfilled : response → State → State;
}.

(** What a handler starts: an axios call, or the confirm dialog, of which
    only [onOk] (the calls that pressing OK starts) is kept. *)
Inductive Effect : Type :=
  | Axios (c : Call)
  | ModalConfirm (onOk : list Call).

(** [useEffect (() => { if (!open) setImageUrl("") }, [open])]: runs after a
    render in which [open] differs from the previous render. *)
Definition openEffect (before after : State) : State :=
  if bool_decide (open before ≠ open after) && negb (open after)
  then setImageUrl "" after
  else after.

Definition Handler : Type := State → State * list Effect.

(** Run a handler and the render that follows it. *)
Definition dispatch (h : Handler) (st : State) : State * list Effect :=
  let '(st', effects) := h st in (openEffect st st', effects).

(** Settle the promise of a call against the current state. *)
Definition settle (c : Call) (o : Outcome (response c)) (st : State) : State :=
  match o with
  | Fulfilled res => openEffect st (onFulfilled c res st)
  | Rejected _ => st
  end.

(** The fetches of the first [useEffect]; [res.data] is the response. *)
Definition fetchProducts : Call :=
  {| request := Get "http://localhost:3001/products";
     response := list ProductRow;
     onFulfilled := λ data, setRows (λ _, data) |}.

Definition fetchCategories : Call :=
  {| request := Get "http://localhost:3001/categories";
     response := list Category.t;
     onFulfilled := λ data, setCategories data |}.

Definition mount : list Call := [fetchProducts; fetchCategories].

(** *** Handlers *)

Definition onAdd : Handler :=
  λ st, (setOpen true (setEditing None st), []).

Definition onEdit (row : ProductRow) : Handler :=
  λ st,
    (setOpen true
       (setImageUrl (if truthy (image row) then image row else "")
          (setEditing (Some row) st)),
     []).

(** [axios.delete (...).then (() => setRows (prev => prev.filter (...)))] *)
Definition deleteCall (id0 : string) : Call :=
  {| request := Delete ("http://localhost:3001/products/" +:+ id0);
     response := unit;
     onFulfilled := λ _, setRows (λ prev, filter (λ r, id r ≠ id0) prev) |}.

Definition onDelete_onOk (id0 : string) : list Call := [deleteCall id0].

Definition onDelete (id0 : string) : Handler :=
  λ st,
    (st, [ModalConfirm (onDelete_onOk id0)]).

(** The [values] antd hands to [onFinish]: [Omit<ProductRow, "id" | "image">]. *)
Record Values : Type := {
  v_code : string;
  v_name : string;
  v_category : string;
  v_price : float;
  v_status : ProductStatus;
}.

(** [next], as [onSubmit] builds it; [uuid] is the result of [uuidv4 ()]. *)
Definition next (uuid : string) (values : Values) (st : State) : ProductRow :=
  {| id := match editing st with Some e => id e | None => uuid end;
     code := v_code values;
     name := v_name values;
     category := v_category values;
     status := v_status values;
     image := imageUrl st;
     price := Number (v_price values) |}.

(** The [put] of the edit branch with its [then] callback; [editing] and
    [next] are the values the callback closes over. *)
Definition putCall (editing next : ProductRow) : Call :=
  {| request := Put ("http://localhost:3001/products/" +:+ id editing) next;
     response := unit;
     onFulfilled := λ _ st,
       setOpen false
         (setRows
            (λ prev, (λ r, if bool_decide (id r = id editing) then next else r) <$> prev)
            st) |}.

(** The [post] of the create branch with its [then] callback. *)
Definition postCall (next : ProductRow) : Call :=
  {| request := Post "http://localhost:3001/products" next;
     response := unit;
     onFulfilled := λ _ st,
       setOpen false (setRows (λ prev, prev ++ [next]) st) |}.

Definition onSubmit (uuid : string) (values : Values) : Handler :=
  λ st,
    let next := next uuid values st in
    match editing st with
    | Some e => (st, [Axios (putCall e next)])
    | None => (st, [Axios (postCall next)])
    end.

(** *** The image upload *)

(** The two build-time values read from [import.meta.env]. *)
Record ImportMetaEnv : Type := {
  VITE_CLOUD_NAME : string;
  VITE_UPLOAD_PRESET : string;
}.

(** [res.data] of the upload response. *)
Record UploadData : Type := { secure_url : string }.

(** One [console.error (label, err)] line. *)
Definition ConsoleError : Type := string * string.

(** An [async] function stopped at its [await]: the request it waits for
    and the rest of its body, which yields the state, the lines written to
    the console and the value the function returns. *)
Record Awaiting : Type := {
  awaited : Request;
  resume : Outcome UploadData → State → State * list ConsoleError * bool;
}.

Definition handleUploadToCloudinary (env : ImportMetaEnv) (file : File) : Awaiting :=
  let url := "https://api.cloudinary.com/v1_1/" +:+ VITE_CLOUD_NAME env +:+ "/image/upload" in
  {| awaited := PostForm url file (VITE_UPLOAD_PRESET env);
     resume := λ o st,
       match o with
       | Fulfilled res => (setImageUrl (secure_url res) st, [], false)
       | Rejected err => (st, [("Upload failed:", err)], false)
       end |}.

(** Settle the awaited upload against the current state and render. *)
Definition settleUpload (a : Awaiting) (o : Outcome UploadData) (st : State)
    : State * list ConsoleError * bool :=
  let '(st', log, ret) := resume a o st in (openEffect st st', log, ret).

(** *** The form *)

(** The fields the user has filled in; [None] is a field still
    [undefined]. *)
Record FormStore : Type := {
  f_code : option string;
  f_name : option string;
  f_category : option string;
  f_price : option float;
  f_status : option ProductStatus;
}.

(** [initialValues = {editing ?? { status: "active" }}] *)
Definition initialValues (st : State) : FormStore :=
  match editing st with
  | Some e =>
      {| f_code := Some (code e); f_name := Some (name e);
         f_category := Some (category e); f_price := Some (price e);
         f_status := Some (status e) |}
  | None =>
      {| f_code := None; f_name := None; f_category := None; f_price := None;
         f_status := Some active |}
  end.

(** The rule [{ required: true }] on a text field: the value must be
    defined and must not be the empty string. *)
Definition requiredString (v : option string) : option string :=
  match v with
  | Some s => if truthy s then Some s else None
  | None => None
  end.

(** All five named items carry [required: true]. *)
Definition validateFields (f : FormStore) : option Values :=
  c ← requiredString (f_code f);
  n ← requiredString (f_name f);
  g ← requiredString (f_category f);
  p ← f_price f;
  s ← f_status f;
  Some {| v_code := c; v_name := n; v_category := g; v_price := p; v_status := s |}.

(** Is the number a whole number? *)
Definition is_whole (p : float) : bool :=
  match Prim2SF p with
  | S754_zero _ => true
  | S754_finite _ m e => (0 <=? e) || (Z.pos m mod 2 ^ (- e) =? 0)
  | _ => false
  end.

(** [<Input type="number" min={0} />] sits in the [<form>] the antd form
    renders.  A click on the submit button first runs the browser's own check
    of the controls of the form, and a control that fails it stops the submit
    before antd sees it.  A number field without [required] and without
    [step] passes when it is empty, or holds a number that is at least [min]
    and is [min] plus a whole number of steps of 1. *)
Definition priceInput_checkValidity (v : option float) : bool :=
  match v with
  | Some p => PrimFloat.leb 0 p && is_whole p
  | None => true
  end.

(** The submit button: the browser's check comes first; then [onFinish] runs
    only when every rule passes; no [onFinishFailed] is given. *)
Definition Form_submit (uuid : string) (f : FormStore) : Handler :=
  λ st,
    if priceInput_checkValidity (f_price f)
    then
      match validateFields f with
      | Some values => onSubmit uuid values st
      | None => (st, [])
      end
    else (st, []).

(** *** The remaining inline handlers *)

(** [onCancel] of the modal. *)
Definition Modal_onCancel : Handler :=
  λ st, (setEditing None (setOpen false st), []).

(** The cancel button of the form. *)
Definition cancelButton_onClick : Handler :=
  λ st, (setOpen false st, []).

(** [onChange = {(e) => setSearch (e.target.value)}] *)
Definition search_onChange (value : string) : Handler :=
  λ st, (setSearch value st, []).

(** [onChange = {(v) => setStatusFilter ((v as ProductStatus) || "")}];
    a cleared select passes [undefined]. *)
Definition statusFilter_onChange (v : option ProductStatus) : Handler :=
  λ st,
    (setStatusFilter (match v with Some s => Some s | None => None end) st, []).

(** [onChange = {setPage}] of the pagination. *)
Definition Pagination_onChange (p : Z) : Handler :=
  λ st, (setPage p st, []).

(** What the table and the pagination are given. *)
Definition dataSource (toLowerCase : string → string) (st : State)
    : list ProductRow :=
  paged (filtered toLowerCase (rows st) (search st) (statusFilter st)) (page st).

Definition total (toLowerCase : string → string) (st : State) : nat :=
  length (filtered toLowerCase (rows st) (search st) (statusFilter st)).
(** *** The category column *)

(** [render: (id) => categories.find ((c) => c.id === id)?.name || "-"]:
    the name of the first category with that id, and a dash when there is
    none or its name is empty. *)
Definition categoryColumn_render (categories : list Category.t) (id0 : string)
    : string :=
  match List.find (λ c, bool_decide (Category.id c = id0)) categories with
  | Some c => if truthy (Category.name c) then Category.name c else "-"
  | None => "-"
  end.

(** *** Everything that can happen to the component

    A user event runs its handler; a settlement runs the callback of a call.
    Which calls are in flight is not tracked: any call the component can
    start may settle at any moment, in any order. *)
Inductive Event : Type :=
  | AddClicked
  | EditClicked (row : ProductRow)
  | DeleteClicked (id0 : string)
  | Submitted (uuid : string) (form : FormStore)
  | ModalCancelled
  | CancelClicked
  | SearchChanged (value : string)
  | StatusChanged (v : option ProductStatus)
  | PageChanged (p : Z)
  | ProductsFetched (o : Outcome (list ProductRow))
  | CategoriesFetched (o : Outcome (list Category.t))
  | DeleteSettled (id0 : string) (o : Outcome unit)
  | PutSettled (editing next : ProductRow) (o : Outcome unit)
  | PostSettled (next : ProductRow) (o : Outcome unit)
  | UploadSettled (env : ImportMetaEnv) (file : File) (o : Outcome UploadData).

Definition step (ev : Event) (st : State) : State :=
  match ev with
  | AddClicked => (dispatch onAdd st).1
  | EditClicked row => (dispatch (onEdit row) st).1
  | DeleteClicked id0 => (dispatch (onDelete id0) st).1
  | Submitted uuid form => (dispatch (Form_submit uuid form) st).1
  | ModalCancelled => (dispatch Modal_onCancel st).1
  | CancelClicked => (dispatch cancelButton_onClick st).1
  | SearchChanged value => (dispatch (search_onChange value) st).1
  | StatusChanged v => (dispatch (statusFilter_onChange v) st).1
  | PageChanged p => (dispatch (Pagination_onChange p) st).1
  | ProductsFetched o => settle fetchProducts o st
  | CategoriesFetched o => settle fetchCategories o st
  | DeleteSettled id0 o => settle (deleteCall id0) o st
  | PutSettled editing next o => settle (putCall editing next) o st
  | PostSettled next o => settle (postCall next) o st
  | UploadSettled env file o =>
      (settleUpload (handleUploadToCloudinary env file) o st).1.1
  end.

(** The events of a trace, oldest first. *)
Definition run (evs : list Event) (st : State) : State :=
  foldl (λ st ev, step ev st) st evs.
(** The events whose callback calls [setRows]: the fulfilled list fetch,
    delete, update and create. *)
Definition calls_setRows (ev : Event) : bool :=
  match ev with
  | ProductsFetched (Fulfilled _)
  | DeleteSettled _ (Fulfilled _)
  | PutSettled _ _ (Fulfilled _)
  | PostSettled _ (Fulfilled _) => true
  | _ => false
  end.
End Products.

(** ** The [Categories] component *)

Module Categories.
Import JS.

(** [type CategoryStatus = "active" | "inactive"] *)
Inductive CategoryStatus : Type := active | inactive.

#[global] Instance CategoryStatus_eq_dec : EqDecision CategoryStatus.
Proof. solve_decision. Defined.

Record CategoryRow : Type := {
  id : string;
  name : string;
  description : string;
  status : CategoryStatus;
}.

Definition pageSize : Z := 5.

Record State : Type := {
  rows : list CategoryRow;
  search : string;
  statusFilter : option CategoryStatus;
  page : Z;
  open : bool;
  editing : option CategoryRow;
}.

Definition init : State :=
  {| rows := []; search := ""; statusFilter := None; page := 1;
     open := false; editing := None |}.

Definition setRows (f : list CategoryRow → list CategoryRow) (st : State) : State :=
  {| rows := f (rows st); search := search st; statusFilter := statusFilter st;
     page := page st; open := open st; editing := editing st |}.

Definition setSearch (s : string) (st : State) : State :=
  {| rows := rows st; search := s; statusFilter := statusFilter st;
     page := page st; open := open st; editing := editing st |}.

Definition setStatusFilter (f : option CategoryStatus) (st : State) : State :=
  {| rows := rows st; search := search st; statusFilter := f;
     page := page st; open := open st; editing := editing st |}.

Definition setPage (p : Z) (st : State) : State :=
  {| rows := rows st; search := search st; statusFilter := statusFilter st;
     page := p; open := open st; editing := editing st |}.

Definition setOpen (b : bool) (st : State) : State :=
  {| rows := rows st; search := search st; statusFilter := statusFilter st;
     page := page st; open := b; editing := editing st |}.

Definition setEditing (e : option CategoryRow) (st : State) : State :=
  {| rows := rows st; search := search st; statusFilter := statusFilter st;
     page := page st; open := open st; editing := e |}.

(** *** Derived view *)

Definition filtered (toLowerCase : string → string) (rows : list CategoryRow)
    (search : string) (statusFilter : option CategoryStatus) : list CategoryRow :=
  filter
    (λ r, Is_true (match statusFilter with
                   | Some f => bool_decide (status r = f)
                   | None => true
                   end))
    (filter
       (λ r, Is_true (if truthy search
                      then includes (toLowerCase (name r)) (toLowerCase search)
                      else true))
       rows).

Definition paged (filtered : list CategoryRow) (page : Z) : list CategoryRow :=
  let start := (page - 1) * pageSize in
  slice filtered start (start + pageSize).

(** *** Effects started by the handlers *)

Inductive Request : Type :=
  | Get (url : string)
  | Post (url : string) (data : CategoryRow)
  | Put (url : string) (data : CategoryRow)
  | Delete (url : string).

Record Call : Type := {
  request : Request;
  response : Type;
  onFulfilled : response → State → State;
}.

(** This component has no effect that depends on its state, so a handler
    yields the next state and the calls it started. *)
Definition Handler : Type := State → State * list Call.

Definition dispatch (h : Handler) (st : State) : State * list Call := h st.

Definition settle (c : Call) (o : Outcome (response c)) (st : State) : State :=
  match o with
  | Fulfilled res => onFulfilled c res st
  | Rejected _ => st
  end.

Definition fetchCategories : Call :=
  {| request := Get "http://localhost:3001/categories";
     response := list CategoryRow;
     onFulfilled := λ data, setRows (λ _, data) |}.

Definition mount : list Call := [fetchCategories].

(** *** Handlers *)

Definition onAdd : Handler :=
  λ st, (setOpen true (setEditing None st), []).

Definition onEdit (row : CategoryRow) : Handler :=
  λ st, (setOpen true (setEditing (Some row) st), []).

Definition deleteCall (id0 : string) : Call :=
  {| request := Delete ("http://localhost:3001/categories/" +:+ id0);
     response := unit;
     onFulfilled := λ _, setRows (λ prev, filter (λ r, id r ≠ id0) prev) |}.

(** No confirm dialog here: the call starts at once. *)
Definition onDelete (id0 : string) : Handler :=
  λ st, (st, [deleteCall id0]).

(** [Omit<CategoryRow, "id">] *)
Record Values : Type := {
  v_name : string;
  v_description : string;
  v_status : CategoryStatus;
}.

Definition next (uuid : string) (values : Values) (st : State) : CategoryRow :=
  {| id := match editing st with Some e => id e | None => uuid end;
     name := v_name values;
     description := v_description values;
     status := v_status values |}.

Definition putCall (editing next : CategoryRow) : Call :=
  {| request := Put ("http://localhost:3001/categories/" +:+ id editing) next;
     response := unit;
     onFulfilled := λ _ st,
       setOpen false
         (setRows
            (λ prev, (λ r, if bool_decide (id r = id editing) then next else r) <$> prev)
            st) |}.

Definition postCall (next : CategoryRow) : Call :=
  {| request := Post "http://localhost:3001/categories" next;
     response := unit;
     onFulfilled := λ _ st,
       setOpen false (setRows (λ prev, prev ++ [next]) st) |}.

Definition onSubmit (uuid : string) (values : Values) : Handler :=
  λ st,
    let next := next uuid values st in
    match editing st with
    | Some e => (st, [putCall e next])
    | None => (st, [postCall next])
    end.

(** *** The form *)

Record FormStore : Type := {
  f_name : option string;
  f_status : option CategoryStatus;
  f_description : option string;
}.

Definition initialValues (st : State) : FormStore :=
  match editing st with
  | Some e =>
      {| f_name := Some (name e); f_status := Some (status e);
         f_description := Some (description e) |}
  | None => {| f_name := None; f_status := Some active; f_description := None |}
  end.

Definition requiredString (v : option string) : option string :=
  match v with
  | Some s => if truthy s then Some s else None
  | None => None
  end.

(** [name] and [status] carry [required: true]; [description] has no rule.
    A text area never touched leaves the field [undefined]; the field is
    declared [string] and is only stored and shown, so the empty string
    stands for it here. *)
Definition validateFields (f : FormStore) : option Values :=
  n ← requiredString (f_name f);
  s ← f_status f;
  Some {| v_name := n; v_description := default "" (f_description f); v_status := s |}.

Definition Form_submit (uuid : string) (f : FormStore) : Handler :=
  λ st,
    match validateFields f with
    | Some values => onSubmit uuid values st
    | None => (st, [])
    end.

(** *** The remaining inline handlers *)

Definition Modal_onCancel : Handler :=
  λ st, (setOpen false st, []).

Definition cancelButton_onClick : Handler :=
  λ st, (setOpen false st, []).

Definition search_onChange (value : string) : Handler :=
  λ st, (setSearch value st, []).

Definition statusFilter_onChange (v : option CategoryStatus) : Handler :=
  λ st,
    (setStatusFilter (match v with Some s => Some s | None => None end) st, []).

Definition Pagination_onChange (p : Z) : Handler :=
  λ st, (setPage p st, []).

Definition dataSource (toLowerCase : string → string) (st : State)
    : list CategoryRow :=
  paged (filtered toLowerCase (rows st) (search st) (statusFilter st)) (page st).

Definition total (toLowerCase : string → string) (st : State) : nat :=
  length (filtered toLowerCase (rows st) (search st) (statusFilter st)).
(** *** Everything that can happen to the component *)

Inductive Event : Type :=
  | AddClicked
  | EditClicked (row : CategoryRow)
  | DeleteClicked (id0 : string)
  | Submitted (uuid : string) (form : FormStore)
  | ModalCancelled
  | CancelClicked
  | SearchChanged (value : string)
  | StatusChanged (v : option CategoryStatus)
  | PageChanged (p : Z)
  | CategoriesFetched (o : Outcome (list CategoryRow))
  | DeleteSettled (id0 : string) (o : Outcome unit)
  | PutSettled (editing next : CategoryRow) (o : Outcome unit)
  | PostSettled (next : CategoryRow) (o : Outcome unit).

(** Clicking delete starts the call; its settlement is an event of its own. *)
Definition step (ev : Event) (st : State) : State :=
  match ev with
  | AddClicked => (dispatch onAdd st).1
  | EditClicked row => (dispatch (onEdit row) st).1
  | DeleteClicked id0 => (dispatch (onDelete id0) st).1
  | Submitted uuid form => (dispatch (Form_submit uuid form) st).1
  | ModalCancelled => (dispatch Modal_onCancel st).1
  | CancelClicked => (dispatch cancelButton_onClick st).1
  | SearchChanged value => (dispatch (search_onChange value) st).1
  | StatusChanged v => (dispatch (statusFilter_onChange v) st).1
  | PageChanged p => (dispatch (Pagination_onChange p) st).1
  | CategoriesFetched o => settle fetchCategories o st
  | DeleteSettled id0 o => settle (deleteCall id0) o st
  | PutSettled editing next o => settle (putCall editing next) o st
  | PostSettled next o => settle (postCall next) o st
  end.

Definition run (evs : list Event) (st : State) : State :=
  foldl (λ st ev, step ev st) st evs.
Definition calls_setRows (ev : Event) : bool :=
  match ev with
  | CategoriesFetched (Fulfilled _)
  | DeleteSettled _ (Fulfilled _)
  | PutSettled _ _ (Fulfilled _)
  | PostSettled _ (Fulfilled _) => true
  | _ => false
  end.
End Categories.

(** ** The specification's vocabulary

    These definitions follow the wording of the specification, not the code;
    the theorems below compare the two. *)

Module Spec.

(** [t] occurs in [s] as a contiguous block. *)
Definition contains (s t : string) : Prop :=
  ∃ u v : string, s = u +:+ t +:+ v.

(** The text test of the amended statement: the search text [t] is empty, or
    the text [s], lower-cased as a whole, contains the search text,
    lower-cased as a whole. *)
Definition lowered_contains (toLowerCase : string → string) (s t : string)
    : Prop :=
  t = "" ∨ contains (toLowerCase s) (toLowerCase t).

(** A record passes when its searchable text passes the text test and, when
    a status filter is chosen, its status is the chosen one. *)
Definition passes {R S : Type} (toLowerCase : string → string)
    (searchable : R → string) (status : R → S)
    (s : string) (f : option S) (r : R) : Prop :=
  lowered_contains toLowerCase (searchable r) s
  ∧ (∀ f0, f = Some f0 → status r = f0).

(** [selection P l l']: [l'] is [l] with exactly the records that satisfy
    [P] kept, in the order and number in which they occur in [l]. *)
Inductive selection {R : Type} (P : R → Prop) : list R → list R → Prop :=
  | selection_nil : selection P [] []
  | selection_keep r l l' :
      P r → selection P l l' → selection P (r :: l) (r :: l')
  | selection_skip r l l' :
      ¬ P r → selection P l l' → selection P (r :: l) l'.

(** Searchable text of a product: name followed by code. *)
Definition product_text (r : Products.ProductRow) : string :=
  Products.name r +:+ Products.code r.

(** Searchable text of a category: its name. *)
Definition category_text (r : Categories.CategoryRow) : string :=
  Categories.name r.

(** Number of pages of [len] items, [size] to a page, rounded up. *)
Definition pageCount (len size : nat) : nat := ((len + size - 1) / size)%nat.

(** The page numbers [1 .. n]. *)
Definition pageNumbers (n : nat) : list Z := Z.of_nat <$> seq 1 n.

(** Every id occurs once in the collection. *)
Definition unique_ids {R : Type} (id : R → string) (rows : list R) : Prop :=
  NoDup (id <$> rows).

End Spec.

(** ** Sample data: the two-record collection of the specification *)

Module Sample.

Definition pen : Products.ProductRow :=
  {| Products.id := "1"; Products.code := "A1"; Products.name := "Pen";
     Products.category := "c1"; Products.price := 12.5%float;
     Products.image := ""; Products.status := Products.active |}.

Definition book : Products.ProductRow :=
  {| Products.id := "2"; Products.code := "B1"; Products.name := "Book";
     Products.category := "c1"; Products.price := 30%float;
     Products.image := "http://img/book.png"; Products.status := Products.inactive |}.

Definition products : list Products.ProductRow := [pen; book].

Definition stationery : Categories.CategoryRow :=
  {| Categories.id := "c1"; Categories.name := "Stationery";
     Categories.description := "Pens and paper"; Categories.status := Categories.active |}.

Definition toys : Categories.CategoryRow :=
  {| Categories.id := "c2"; Categories.name := "Toys";
     Categories.description := ""; Categories.status := Categories.inactive |}.

Definition categories : list Categories.CategoryRow := [stationery; toys].


(** A product that was created earlier and so carries a generated id. *)
Definition stapler : Products.ProductRow :=
  {| Products.id := "3b241101-e2bb-4255-8caf-4136c566a962";
     Products.code := "S1"; Products.name := "Stapler";
     Products.category := "c1"; Products.price := 9%float;
     Products.image := ""; Products.status := Products.active |}.

Definition glossary : Categories.CategoryRow :=
  {| Categories.id := "3b241101-e2bb-4255-8caf-4136c566a962";
     Categories.name := "Glossary"; Categories.description := "";
     Categories.status := Categories.active |}.

Definition productsState : Products.State :=
  {| Products.rows := products; Products.categories := [];
     Products.search := ""; Products.statusFilter := None; Products.page := 1;
     Products.open := true; Products.editing := None; Products.imageUrl := "" |}.

Definition categoriesState : Categories.State :=
  {| Categories.rows := categories; Categories.search := "";
     Categories.statusFilter := None; Categories.page := 1;
     Categories.open := true; Categories.editing := None |}.

(** The same screens with the first record open in the edit form. *)
Definition productsEditing : Products.State :=
  {| Products.rows := products; Products.categories := [];
     Products.search := ""; Products.statusFilter := None; Products.page := 1;
     Products.open := true; Products.editing := Some pen;
     Products.imageUrl := "http://img/pen.png" |}.

Definition categoriesEditing : Categories.State :=
  {| Categories.rows := categories; Categories.search := "";
     Categories.statusFilter := None; Categories.page := 1;
     Categories.open := true; Categories.editing := Some stationery |}.

(** Two filled-in forms. *)
Definition productDraft : Products.Values :=
  {| Products.v_code := "C7"; Products.v_name := "Ruler";
     Products.v_category := "c1"; Products.v_price := 4%float;
     Products.v_status := Products.active |}.

Definition categoryDraft : Categories.Values :=
  {| Categories.v_name := "Games"; Categories.v_description := "Board games";
     Categories.v_status := Categories.active |}.

(** Seven numbered records, for the pagination scenario. *)
Definition numbered (n : nat) : Categories.CategoryRow :=
  {| Categories.id := pretty n; Categories.name := "item " +:+ pretty n;
     Categories.description := ""; Categories.status := Categories.active |}.

Definition seven : list Categories.CategoryRow := numbered <$> seq 1 7.

End Sample.


(** * Verification *)

(** ** Strings *)

Section strings.
Import JS.

Lemma startsWith_spec (s t : string) :
  startsWith s t = true ↔ ∃ v, s = t +:+ v.
Proof.
  revert s. induction t as [|b t IH]; intros s; simpl.
  - split; [intros _; by exists s | done].
  - destruct s as [|a s]; simpl.
    + split; [done | by intros [v Hv]].
    + rewrite andb_true_iff, bool_decide_eq_true, IH. split.
      * intros [-> [v ->]]. by exists v.
      * intros [v Hv]. injection Hv as -> ->. eauto.
Qed.

Lemma includes_spec (s t : string) :
  includes s t = true ↔ Spec.contains s t.
Proof.
  unfold Spec.contains. induction s as [|a s IH]; simpl.
  - rewrite orb_false_r, startsWith_spec. split.
    + intros [v Hv]. by exists "", v.
    + intros (u & v & Hv). destruct u; [by exists v | done].
  - rewrite orb_true_iff, startsWith_spec, IH. split.
    + intros [[v Hv] | (u & v & ->)].
      * by exists "", v.
      * by exists (String a u), v.
    + intros (u & v & Hv). destruct u as [|a' u]; simpl in Hv.
      * left. by exists v.
      * right. injection Hv as -> ->. by exists u, v.
Qed.

Lemma contains_empty (s : string) : Spec.contains s "".
Proof. by exists "", s. Qed.

(** The search test of both components decides the text test, whatever the
    lower-casing function. *)
Lemma search_test_spec (toLowerCase : string → string) (text search : string) :
  Is_true (if truthy search
           then includes (toLowerCase text) (toLowerCase search)
           else true)
  ↔ Spec.lowered_contains toLowerCase text search.
Proof.
  unfold Spec.lowered_contains.
  destruct search as [|c search]; simpl truthy; cbv iota.
  - split; [intros _; by left | done].
  - rewrite Is_true_true, includes_spec. split; [by right|].
    by intros [?|?].
Qed.

Lemma status_test_spec {S : Type} `{EqDecision S} (x : S) (f : option S) :
  Is_true (match f with Some f0 => bool_decide (x = f0) | None => true end)
  ↔ ∀ f0, f = Some f0 → x = f0.
Proof.
  destruct f as [f0|].
  - rewrite bool_decide_spec. split; [by intros -> ? [= <-] | eauto].
  - split; [by intros _ | done].
Qed.

End strings.

(** ** Selections *)

Section selection.
Context {R : Type}.
Implicit Types (P Q : R → Prop) (l : list R).


Lemma selection_elem_of P l l' r :
  Spec.selection P l l' → r ∈ l' ↔ r ∈ l ∧ P r.
Proof.
  induction 1 as [|x l l' HP _ IH|x l l' HP _ IH]; rewrite ?elem_of_cons.
  - split; [by intros ?%elem_of_nil | by intros [?%elem_of_nil _]].
  - rewrite IH. split.
    + intros [->|[? ?]]; auto.
    + intros [[->|?] ?]; auto.
  - rewrite IH. split.
    + intros [? ?]; auto.
    + intros [[->|?] ?]; [done | auto].
Qed.



Lemma filter_selection P Q `{!∀ r, Decision (P r)} l :
  (∀ r, P r ↔ Q r) → Spec.selection Q l (filter P l).
Proof.
  intros HPQ. induction l as [|x l IH]; [constructor|].
  rewrite filter_cons. destruct (decide (P x)) as [HP|HP].
  - constructor; [by apply HPQ | done].
  - constructor; [by rewrite <- HPQ | done].
Qed.

(** The shape [rows.filter (search test).filter (status test)] shared by the
    two components, for any choice of searchable text and of lower-casing. *)
Lemma chained_filters_select {S : Type} `{EqDecision S}
    (toLowerCase : string → string)
    (text : R → string) (status : R → S) (s : string) (f : option S) l :
  Spec.selection (Spec.passes toLowerCase text status s f) l
    (filter
       (λ r, Is_true (match f with
                      | Some f0 => bool_decide (status r = f0)
                      | None => true
                      end))
       (filter
          (λ r, Is_true (if JS.truthy s
                         then JS.includes (toLowerCase (text r)) (toLowerCase s)
                         else true))
          l)).
Proof.
  rewrite list_filter_filter. apply filter_selection. intros r.
  unfold Spec.passes. rewrite search_test_spec, status_test_spec. tauto.
Qed.




End selection.

(** ** The filter engine *)



(** ** Pagination *)

Section paging.
Context {A : Type}.
Implicit Types (l : list A) (size p : Z).

(** For a page number and a page size that are at least one, [slice] is
    "skip the earlier pages, then keep one page". *)
Lemma slice_page l size p :
  1 ≤ size → 1 ≤ p →
  JS.slice l ((p - 1) * size) ((p - 1) * size + size)
  = take (Z.to_nat size) (drop (Z.to_nat ((p - 1) * size)) l).
Proof.
  intros Hsize Hp. unfold JS.slice.
  set (start := (p - 1) * size). assert (0 ≤ start) as Hstart by (subst start; nia).
  clearbody start.
  set (len := Z.of_nat (length l)).
  destruct (Z.ltb_spec start 0) as [?|_]; [lia|].
  destruct (Z.ltb_spec (start + size) 0) as [?|_]; [lia|].
  destruct (decide (len ≤ start)) as [Hge|Hlt].
  - rewrite !(drop_ge l), !take_nil; [done | subst len; lia..].
  - rewrite (Z.min_l start len) by lia.
    destruct (decide (start + size ≤ len)) as [Hfull|Hpart].
    + rewrite (Z.min_l (start + size) len) by lia. do 2 f_equal. lia.
    + rewrite (Z.min_r (start + size) len) by lia.
      rewrite !take_ge; [done | rewrite length_drop; subst len; lia..].
Qed.

Lemma page_lookup l (size start i : nat) :
  take size (drop start l) !! i
  = if decide (i < size)%nat then l !! (start + i)%nat else None.
Proof. by rewrite lookup_take, lookup_drop. Qed.

(** The first [n] pages, one after the other, are the first [n * size]
    items. *)
Lemma pages_concat l (size n : nat) :
  concat ((λ k : nat, take size (drop ((k - 1) * size) l)) <$> seq 1 n)
  = take (n * size) l.
Proof.
  induction n as [|n IH]; [done|].
  rewrite seq_S, fmap_app, concat_app, IH. simpl.
  rewrite app_nil_r, Nat.sub_0_r, take_take_drop. f_equal. lia.
Qed.

Lemma pageCount_covers (len size : nat) :
  (1 ≤ size → len ≤ Spec.pageCount len size * size)%nat.
Proof.
  intros Hsize. unfold Spec.pageCount.
  pose proof (Nat.div_mod_eq (len + size - 1) size) as Hdiv.
  pose proof (Nat.mod_upper_bound (len + size - 1) size) as Hmod.
  nia.
Qed.

(** Concatenating the pages [1 .. pageCount] of a list gives the list back,
    for every page size that is at least one. *)
Lemma slice_pages_concat l size :
  1 ≤ size →
  concat ((λ p, JS.slice l ((p - 1) * size) ((p - 1) * size + size))
            <$> Spec.pageNumbers (Spec.pageCount (length l) (Z.to_nat size)))
  = l.
Proof.
  intros Hsize. unfold Spec.pageNumbers. rewrite <- list_fmap_compose.
  rewrite <- (take_ge l (Spec.pageCount (length l) (Z.to_nat size) * Z.to_nat size))
    at 2 by (apply pageCount_covers; lia).
  rewrite <- pages_concat. f_equal. apply list_fmap_ext.
  intros i k Hk. apply lookup_seq in Hk as [-> _]. simpl.
  rewrite slice_page by lia. do 2 f_equal. lia.
Qed.

End paging.

(** Both [paged] functions are the same [slice] expression at their own
    (equal) page size. *)
Lemma Products_paged_page (C : list Products.ProductRow) (p : Z) :
  1 ≤ p →
  Products.paged C p
  = take (Z.to_nat Products.pageSize)
      (drop (Z.to_nat ((p - 1) * Products.pageSize)) C).
Proof. intros Hp. unfold Products.paged. by apply slice_page. Qed.

Lemma Categories_paged_page (K : list Categories.CategoryRow) (p : Z) :
  1 ≤ p →
  Categories.paged K p
  = take (Z.to_nat Categories.pageSize)
      (drop (Z.to_nat ((p - 1) * Categories.pageSize)) K).
Proof. intros Hp. unfold Categories.paged. by apply slice_page. Qed.

(** C2.  For a page number [p] that is at least one, [paged] is the slice
    that starts at index [(p - 1) * pageSize] and holds [pageSize] positions:
    position [i] of the page is position [(p - 1) * pageSize + i] of the list
    when [i < pageSize] and is absent otherwise, so the page has at most
    [pageSize] items; and the pages [1 .. ceil (length / pageSize)], one after
    the other, are the list itself.  This holds of the [slice] expression
    for every page size that is at least one, and so of [paged] in both
    components, whose page size is the constant 5. *)
Theorem paged_is_the_page_slice_and_pages_rebuild_the_list
    (C : list Products.ProductRow) (K : list Categories.CategoryRow) (p : Z) :
  1 ≤ p →
  (∀ (A : Type) (items : list A) (size : Z),
     1 ≤ size →
     (∀ i : nat,
        JS.slice items ((p - 1) * size) ((p - 1) * size + size) !! i
        = if decide (i < Z.to_nat size)%nat
          then items !! (Z.to_nat ((p - 1) * size) + i)%nat
          else None)
     ∧ (length (JS.slice items ((p - 1) * size) ((p - 1) * size + size))
        ≤ Z.to_nat size)%nat
     ∧ concat ((λ q, JS.slice items ((q - 1) * size) ((q - 1) * size + size))
                 <$> Spec.pageNumbers
                       (Spec.pageCount (length items) (Z.to_nat size)))
       = items)
  ∧
  ((∀ i : nat,
      Products.paged C p !! i
      = if decide (i < Z.to_nat Products.pageSize)%nat
        then C !! (Z.to_nat ((p - 1) * Products.pageSize) + i)%nat
        else None)
   ∧ (length (Products.paged C p) ≤ Z.to_nat Products.pageSize)%nat
   ∧ concat (Products.paged C
               <$> Spec.pageNumbers
                     (Spec.pageCount (length C) (Z.to_nat Products.pageSize)))
     = C)
  ∧
  ((∀ i : nat,
      Categories.paged K p !! i
      = if decide (i < Z.to_nat Categories.pageSize)%nat
        then K !! (Z.to_nat ((p - 1) * Categories.pageSize) + i)%nat
        else None)
   ∧ (length (Categories.paged K p) ≤ Z.to_nat Categories.pageSize)%nat
   ∧ concat (Categories.paged K
               <$> Spec.pageNumbers
                     (Spec.pageCount (length K) (Z.to_nat Categories.pageSize)))
     = K).
Proof.
  intros Hp. split; [|split].
  - intros A items size Hsize. rewrite slice_page by done.
    split; [intros i; apply page_lookup|].
    split; [rewrite length_take; lia|].
    by apply slice_pages_concat.
  - rewrite Products_paged_page by done. split; [intros i; apply page_lookup|].
    split; [rewrite length_take; lia|].
    by apply (slice_pages_concat C Products.pageSize).
  - rewrite Categories_paged_page by done. split; [intros i; apply page_lookup|].
    split; [rewrite length_take; lia|].
    by apply (slice_pages_concat K Categories.pageSize).
Qed.

(** The scenario of the specification: seven records, page two shows the
    records six and seven; the two pages together are the seven records. *)
Lemma paged_is_the_page_slice_witness :
  1 ≤ 2
  ∧ Categories.paged Sample.seven 2 !! 0%nat = Sample.seven !! 5%nat
  ∧ Categories.paged Sample.seven 2 !! 5%nat = None
  ∧ (length (Categories.paged Sample.seven 2) ≤ 5)%nat
  ∧ concat (Categories.paged Sample.seven <$> [1; 2]) = Sample.seven
  ∧ concat (Products.paged Sample.products <$> [1]) = Sample.products.
Proof.
  assert (1 ≤ 2) as Hp by lia.
  destruct (paged_is_the_page_slice_and_pages_rebuild_the_list
              Sample.products Sample.seven 2 Hp)
    as (_ & (_ & _ & HC) & (Hi & Hlen & HK)).
  split; [exact Hp|].
  split; [exact (Hi 0%nat)|].
  split; [exact (Hi 5%nat)|].
  split; [exact Hlen|].
  split; [exact HK | exact HC].
Defined.

(** C9.  For a page number [p] that is at least one, [paged] always yields a
    list: the empty list when [(p - 1) * pageSize] is at or beyond the end,
    the remaining tail when the list ends before [p * pageSize]; what it
    yields is a subsequence of the list and every item of it is read from an
    existing position. *)
Theorem paged_is_total_past_the_end
    (C : list Products.ProductRow) (K : list Categories.CategoryRow) (p : Z) :
  1 ≤ p →
  ((Z.of_nat (length C) ≤ (p - 1) * Products.pageSize → Products.paged C p = [])
   ∧ (Z.of_nat (length C) ≤ p * Products.pageSize →
      Products.paged C p = drop (Z.to_nat ((p - 1) * Products.pageSize)) C)
   ∧ Products.paged C p `sublist_of` C
   ∧ (∀ (i : nat) r, Products.paged C p !! i = Some r →
        C !! (Z.to_nat ((p - 1) * Products.pageSize) + i)%nat = Some r))
  ∧
  ((Z.of_nat (length K) ≤ (p - 1) * Categories.pageSize → Categories.paged K p = [])
   ∧ (Z.of_nat (length K) ≤ p * Categories.pageSize →
      Categories.paged K p = drop (Z.to_nat ((p - 1) * Categories.pageSize)) K)
   ∧ Categories.paged K p `sublist_of` K
   ∧ (∀ (i : nat) r, Categories.paged K p !! i = Some r →
        K !! (Z.to_nat ((p - 1) * Categories.pageSize) + i)%nat = Some r)).
Proof.
  intros Hp. split.
  - rewrite Products_paged_page by done. unfold Products.pageSize.
    split; [intros Hend; rewrite drop_ge by lia; apply take_nil|].
    split; [intros Hend; apply take_ge; rewrite length_drop; lia|].
    split; [etrans; [apply sublist_take | apply sublist_drop]|].
    intros i r. rewrite page_lookup. by case_decide.
  - rewrite Categories_paged_page by done. unfold Categories.pageSize.
    split; [intros Hend; rewrite drop_ge by lia; apply take_nil|].
    split; [intros Hend; apply take_ge; rewrite length_drop; lia|].
    split; [etrans; [apply sublist_take | apply sublist_drop]|].
    intros i r. rewrite page_lookup. by case_decide.
Qed.

(** Seven records: page three is empty, page two is the tail after the first
    five. *)
Lemma paged_is_total_past_the_end_witness :
  1 ≤ 3
  ∧ Categories.paged Sample.seven 3 = []
  ∧ Categories.paged Sample.seven 2 = drop 5 Sample.seven
  ∧ Products.paged Sample.products 3 = [].
Proof.
  assert (1 ≤ 3) as H3 by lia. assert (1 ≤ 2) as H2 by lia.
  split; [exact H3|].
  split; [|split].
  - apply (paged_is_total_past_the_end Sample.products Sample.seven 3 H3).
    vm_compute. discriminate.
  - apply (paged_is_total_past_the_end Sample.products Sample.seven 2 H2).
    vm_compute. discriminate.
  - apply (paged_is_total_past_the_end Sample.products Sample.seven 3 H3).
    vm_compute. discriminate.
Defined.

(** ** Local reconciliation of the collection

    The three list updates the [then] callbacks apply, for any record type
    with an [id] field. *)

Section reconcile.
Context {R : Type} (id : R → string).
Implicit Types (l prev : list R) (x : string) (next r : R).

Lemma remove_absent prev x :
  x ∉ id <$> prev → filter (λ r, id r ≠ x) prev = prev.
Proof.
  induction prev as [|r prev IH]; [done|].
  rewrite fmap_cons, not_elem_of_cons. intros [Hne Hnot].
  rewrite filter_cons_True by done. by rewrite IH.
Qed.

Lemma remove_gone prev x : x ∉ id <$> filter (λ r, id r ≠ x) prev.
Proof.
  rewrite list_elem_of_fmap. intros (r & -> & Hr).
  apply list_elem_of_filter in Hr as [Hne _]. by apply Hne.
Qed.

Lemma remove_length prev x :
  NoDup (id <$> prev) → x ∈ id <$> prev →
  S (length (filter (λ r, id r ≠ x) prev)) = length prev.
Proof.
  induction prev as [|r prev IH]; [by intros _ ?%elem_of_nil|].
  rewrite fmap_cons, NoDup_cons, elem_of_cons. intros [Hr Hnodup] Hin.
  destruct (decide (id r = x)) as [Heq|Hne].
  - rewrite filter_cons_False by (intros Hne; by apply Hne).
    rewrite remove_absent by (by rewrite <- Heq). done.
  - rewrite filter_cons_True by done. simpl. f_equal. apply IH; [done|].
    destruct Hin as [->|Hin]; done.
Qed.

Lemma remove_keeps_others prev x r :
  r ∈ filter (λ r, id r ≠ x) prev ↔ r ∈ prev ∧ id r ≠ x.
Proof. rewrite list_elem_of_filter. tauto. Qed.

Lemma replace_absent prev x next :
  x ∉ id <$> prev →
  (λ r, if bool_decide (id r = x) then next else r) <$> prev = prev.
Proof.
  induction prev as [|r prev IH]; [done|].
  rewrite !fmap_cons, not_elem_of_cons. intros [Hne Hnot].
  rewrite bool_decide_eq_false_2 by done. by rewrite IH.
Qed.

Lemma replace_lookup prev x next (i : nat) r :
  prev !! i = Some r →
  ((λ r, if bool_decide (id r = x) then next else r) <$> prev) !! i
  = Some (if bool_decide (id r = x) then next else r).
Proof. intros Hi. by rewrite list_lookup_fmap, Hi. Qed.

Lemma replace_present prev x next :
  x ∈ id <$> prev →
  next ∈ (λ r, if bool_decide (id r = x) then next else r) <$> prev.
Proof.
  rewrite !list_elem_of_fmap. intros (r & -> & Hr). exists r.
  by rewrite bool_decide_eq_true_2.
Qed.

Lemma append_one_with_id prev x next :
  x ∉ id <$> prev → id next = x →
  filter (λ r, id r = x) (prev ++ [next]) = [next].
Proof.
  intros Hnot Hid. rewrite filter_app.
  replace (filter (λ r, id r = x) prev) with (@nil R).
  - by rewrite filter_cons_True.
  - symmetry. induction prev as [|r prev IH]; [done|].
    rewrite fmap_cons, not_elem_of_cons in Hnot. destruct Hnot as [Hne Hnot].
    rewrite filter_cons_False by (intros Heq; by apply Hne). by apply IH.
Qed.

Lemma append_alone_iff_new prev x next :
  id next = x →
  filter (λ r, id r = x) (prev ++ [next]) = [next] ↔ x ∉ id <$> prev.
Proof.
  intros Hid. split; [|intros Hnot; by apply append_one_with_id].
  rewrite filter_app, filter_cons_True, filter_nil by done.
  intros Hone Hin. apply list_elem_of_fmap in Hin as (r & Hr & Hin).
  assert (r ∈ filter (λ r, id r = x) prev) as Hfil
    by (by apply list_elem_of_filter).
  destruct (filter (λ r, id r = x) prev) as [|r' l'].
  - by apply elem_of_nil in Hfil.
  - apply (f_equal length) in Hone. rewrite length_app in Hone.
    simpl in Hone. lia.
Qed.

Lemma append_keeps_unique prev x next :
  NoDup (id <$> prev) → x ∉ id <$> prev → id next = x →
  NoDup (id <$> prev ++ [next]).
Proof.
  intros Hnodup Hnot Hid. rewrite fmap_app, NoDup_app. split; [done|].
  split; [|apply NoDup_singleton].
  intros y Hy. simpl. rewrite list_elem_of_singleton, Hid. by intros ->.
Qed.

End reconcile.

(** The [useEffect] on [open] never touches the collection, and does nothing
    when [open] did not change. *)
Lemma Products_openEffect_rows (before after : Products.State) :
  Products.rows (Products.openEffect before after) = Products.rows after.
Proof. unfold Products.openEffect. by destruct (_ && _). Qed.

Lemma Products_openEffect_same_open (before after : Products.State) :
  Products.open before = Products.open after →
  Products.openEffect before after = after.
Proof.
  intros Hopen. unfold Products.openEffect.
  by rewrite bool_decide_eq_false_2 by (by intros Hne).
Qed.

(** ** Create, update, delete *)

(** A helper for closed goals: decide, then evaluate the decision. *)
Ltac decide_by_evaluation :=
  apply (bool_decide_unpack _); vm_compute; exact I.

(** C3, as amended.  A submit with no record being edited starts one [post]
    of the record [next], whose id is the result of [uuidv4 ()] and whose
    other fields are the draft (the form values and the staged image).  When
    that call is fulfilled, [next] is appended to the collection, which is one
    longer.  The code does not look at the ids it already holds: [next] is the
    only record with its id exactly when that id is not yet an id of the
    collection. *)
Theorem add_appends_one_record_alone_with_its_id_iff_the_id_is_new
    (uuid : string)
    (pv : Products.Values) (ps0 ps : Products.State)
    (cv : Categories.Values) (cs0 cs : Categories.State) :
  Products.editing ps0 = None →
  Categories.editing cs0 = None →
  (let next := Products.next uuid pv ps0 in
   let ps' := Products.settle (Products.postCall next) (JS.Fulfilled ()) ps in
   Products.dispatch (Products.onSubmit uuid pv) ps0
   = (ps0, [Products.Axios (Products.postCall next)])
   ∧ next = {| Products.id := uuid;
               Products.code := Products.v_code pv;
               Products.name := Products.v_name pv;
               Products.category := Products.v_category pv;
               Products.price := Products.v_price pv;
               Products.image := Products.imageUrl ps0;
               Products.status := Products.v_status pv |}
   ∧ Products.rows ps' = Products.rows ps ++ [next]
   ∧ length (Products.rows ps') = S (length (Products.rows ps))
   ∧ (filter (λ r, Products.id r = uuid) (Products.rows ps') = [next]
      ↔ uuid ∉ Products.id <$> Products.rows ps))
  ∧
  (let next := Categories.next uuid cv cs0 in
   let cs' := Categories.settle (Categories.postCall next) (JS.Fulfilled ()) cs in
   Categories.dispatch (Categories.onSubmit uuid cv) cs0
   = (cs0, [Categories.postCall next])
   ∧ next = {| Categories.id := uuid;
               Categories.name := Categories.v_name cv;
               Categories.description := Categories.v_description cv;
               Categories.status := Categories.v_status cv |}
   ∧ Categories.rows cs' = Categories.rows cs ++ [next]
   ∧ length (Categories.rows cs') = S (length (Categories.rows cs))
   ∧ (filter (λ r, Categories.id r = uuid) (Categories.rows cs') = [next]
      ↔ uuid ∉ Categories.id <$> Categories.rows cs)).
Proof.
  intros Hp0 Hc0. split.
  - cbv zeta.
    assert (Products.id (Products.next uuid pv ps0) = uuid) as Hid
      by (unfold Products.next; by rewrite Hp0).
    assert (Products.rows
              (Products.settle (Products.postCall (Products.next uuid pv ps0))
                 (JS.Fulfilled ()) ps)
            = Products.rows ps ++ [Products.next uuid pv ps0]) as Hrows
      by (unfold Products.settle; by rewrite Products_openEffect_rows).
    split.
    { unfold Products.dispatch, Products.onSubmit. rewrite Hp0.
      by rewrite Products_openEffect_same_open. }
    split; [unfold Products.next, JS.Number; by rewrite Hp0|].
    split; [done|]. rewrite Hrows.
    split; [rewrite length_app; simpl; lia|].
    by apply append_alone_iff_new.
  - cbv zeta.
    assert (Categories.id (Categories.next uuid cv cs0) = uuid) as Hid
      by (unfold Categories.next; by rewrite Hc0).
    split; [unfold Categories.dispatch, Categories.onSubmit; by rewrite Hc0|].
    split; [unfold Categories.next; by rewrite Hc0|].
    split; [done|]. simpl.
    split; [rewrite length_app; simpl; lia|].
    by apply append_alone_iff_new.
Qed.

(** The id ["3"] is new to both sample collections; after the create call the
    products are three and the new category is alone with its id. *)
Lemma add_appends_one_record_witness :
  Products.editing Sample.productsState = None
  ∧ Categories.editing Sample.categoriesState = None
  ∧ length (Products.rows
              (Products.settle
                 (Products.postCall
                    (Products.next "3" Sample.productDraft Sample.productsState))
                 (JS.Fulfilled ()) Sample.productsState)) = 3%nat
  ∧ filter (λ r, Categories.id r = "3")
      (Categories.rows
         (Categories.settle
            (Categories.postCall
               (Categories.next "3" Sample.categoryDraft Sample.categoriesState))
            (JS.Fulfilled ()) Sample.categoriesState))
    = [Categories.next "3" Sample.categoryDraft Sample.categoriesState].
Proof.
  assert (Products.editing Sample.productsState = None) as Hp0 by reflexivity.
  assert (Categories.editing Sample.categoriesState = None) as Hc0 by reflexivity.
  destruct (add_appends_one_record_alone_with_its_id_iff_the_id_is_new "3"
              Sample.productDraft Sample.productsState Sample.productsState
              Sample.categoryDraft Sample.categoriesState Sample.categoriesState
              Hp0 Hc0)
    as [(_ & _ & _ & HP & _) (_ & _ & _ & _ & HC)].
  split; [exact Hp0|]. split; [exact Hc0|]. split; [exact HP|].
  apply HC. decide_by_evaluation.
Defined.

(** C3, as first stated, fails.  The collection holds a record created
    earlier, under a generated id; [uuidv4 ()] returns that id again.  After
    the create has succeeded the collection is one longer, and two of its
    records carry the id, not one. *)
Lemma add_with_an_id_in_use_gives_two_records :
  Products.editing (Products.setRows (λ _, [Sample.stapler]) Products.init) = None
  ∧ Products.rows
      (Products.settle
         (Products.postCall
            (Products.next "3b241101-e2bb-4255-8caf-4136c566a962"
               Sample.productDraft
               (Products.setRows (λ _, [Sample.stapler]) Products.init)))
         (JS.Fulfilled ())
         (Products.setRows (λ _, [Sample.stapler]) Products.init))
    = [Sample.stapler;
       Products.next "3b241101-e2bb-4255-8caf-4136c566a962" Sample.productDraft
         (Products.setRows (λ _, [Sample.stapler]) Products.init)]
  ∧ length
      (filter (λ r, Products.id r = "3b241101-e2bb-4255-8caf-4136c566a962")
         (Products.rows
            (Products.settle
               (Products.postCall
                  (Products.next "3b241101-e2bb-4255-8caf-4136c566a962"
                     Sample.productDraft
                     (Products.setRows (λ _, [Sample.stapler]) Products.init)))
               (JS.Fulfilled ())
               (Products.setRows (λ _, [Sample.stapler]) Products.init))))
    = 2%nat
  ∧ Categories.id
    <$> Categories.rows
          (Categories.settle
             (Categories.postCall
                (Categories.next "3b241101-e2bb-4255-8caf-4136c566a962"
                   Sample.categoryDraft
                   (Categories.setRows (λ _, [Sample.glossary]) Categories.init)))
             (JS.Fulfilled ())
             (Categories.setRows (λ _, [Sample.glossary]) Categories.init))
    = ["3b241101-e2bb-4255-8caf-4136c566a962";
       "3b241101-e2bb-4255-8caf-4136c566a962"].
Proof. repeat split; reflexivity. Qed.

(** C4.  A submit while a record is being edited starts one [put] of the
    record [next], which carries the id of the edited record and the draft in
    its other fields.  When that call is fulfilled the collection keeps its
    length, every position that held a record with that id now holds [next],
    and every other position holds what it held before. *)
Theorem update_replaces_the_record_in_place
    (uuid : string)
    (pe : Products.ProductRow) (pv : Products.Values) (ps0 ps : Products.State)
    (ce : Categories.CategoryRow) (cv : Categories.Values)
    (cs0 cs : Categories.State) :
  Products.editing ps0 = Some pe →
  Categories.editing cs0 = Some ce →
  Products.id pe ∈ Products.id <$> Products.rows ps →
  Categories.id ce ∈ Categories.id <$> Categories.rows cs →
  (let next := Products.next uuid pv ps0 in
   let ps' := Products.settle (Products.putCall pe next) (JS.Fulfilled ()) ps in
   Products.dispatch (Products.onSubmit uuid pv) ps0
   = (ps0, [Products.Axios (Products.putCall pe next)])
   ∧ next = {| Products.id := Products.id pe;
               Products.code := Products.v_code pv;
               Products.name := Products.v_name pv;
               Products.category := Products.v_category pv;
               Products.price := Products.v_price pv;
               Products.image := Products.imageUrl ps0;
               Products.status := Products.v_status pv |}
   ∧ length (Products.rows ps') = length (Products.rows ps)
   ∧ (∀ (i : nat) r, Products.rows ps !! i = Some r →
        Products.id r = Products.id pe → Products.rows ps' !! i = Some next)
   ∧ (∀ (i : nat) r, Products.rows ps !! i = Some r →
        Products.id r ≠ Products.id pe → Products.rows ps' !! i = Some r)
   ∧ (∀ r, r ∈ Products.rows ps' → Products.id r = Products.id pe → r = next)
   ∧ next ∈ Products.rows ps')
  ∧
  (let next := Categories.next uuid cv cs0 in
   let cs' := Categories.settle (Categories.putCall ce next) (JS.Fulfilled ()) cs in
   Categories.dispatch (Categories.onSubmit uuid cv) cs0
   = (cs0, [Categories.putCall ce next])
   ∧ next = {| Categories.id := Categories.id ce;
               Categories.name := Categories.v_name cv;
               Categories.description := Categories.v_description cv;
               Categories.status := Categories.v_status cv |}
   ∧ length (Categories.rows cs') = length (Categories.rows cs)
   ∧ (∀ (i : nat) r, Categories.rows cs !! i = Some r →
        Categories.id r = Categories.id ce → Categories.rows cs' !! i = Some next)
   ∧ (∀ (i : nat) r, Categories.rows cs !! i = Some r →
        Categories.id r ≠ Categories.id ce → Categories.rows cs' !! i = Some r)
   ∧ (∀ r, r ∈ Categories.rows cs' → Categories.id r = Categories.id ce → r = next)
   ∧ next ∈ Categories.rows cs').
Proof.
  intros Hp0 Hc0 Hpin Hcin. split.
  - cbv zeta. set (next := Products.next uuid pv ps0).
    assert (Products.id next = Products.id pe) as Hid
      by (unfold next, Products.next; by rewrite Hp0).
    assert (Products.rows
              (Products.settle (Products.putCall pe next) (JS.Fulfilled ()) ps)
            = (λ r, if bool_decide (Products.id r = Products.id pe)
                    then next else r) <$> Products.rows ps) as ->
      by (unfold Products.settle; by rewrite Products_openEffect_rows).
    split.
    { unfold Products.dispatch, Products.onSubmit. rewrite Hp0.
      by rewrite Products_openEffect_same_open. }
    split; [unfold next, Products.next, JS.Number; by rewrite Hp0|].
    split; [apply length_fmap|].
    split.
    { intros i r Hi Hr. rewrite (replace_lookup _ _ _ _ _ r) by done.
      by rewrite bool_decide_eq_true_2. }
    split.
    { intros i r Hi Hr. rewrite (replace_lookup _ _ _ _ _ r) by done.
      by rewrite bool_decide_eq_false_2. }
    split; [|by apply replace_present].
    intros r (r0 & -> & _)%list_elem_of_fmap.
    case_bool_decide as Hr0; [done|]. intros Heq. by destruct Hr0.
  - cbv zeta. set (next := Categories.next uuid cv cs0).
    assert (Categories.id next = Categories.id ce) as Hid
      by (unfold next, Categories.next; by rewrite Hc0).
    assert (Categories.rows
              (Categories.settle (Categories.putCall ce next) (JS.Fulfilled ()) cs)
            = (λ r, if bool_decide (Categories.id r = Categories.id ce)
                    then next else r) <$> Categories.rows cs) as ->
      by done.
    split; [unfold Categories.dispatch, Categories.onSubmit; by rewrite Hc0|].
    split; [unfold next, Categories.next; by rewrite Hc0|].
    split; [apply length_fmap|].
    split.
    { intros i r Hi Hr. rewrite (replace_lookup _ _ _ _ _ r) by done.
      by rewrite bool_decide_eq_true_2. }
    split.
    { intros i r Hi Hr. rewrite (replace_lookup _ _ _ _ _ r) by done.
      by rewrite bool_decide_eq_false_2. }
    split; [|by apply replace_present].
    intros r (r0 & -> & _)%list_elem_of_fmap.
    case_bool_decide as Hr0; [done|]. intros Heq. by destruct Hr0.
Qed.

(** Editing the first sample record of each screen: the first position takes
    the new record, the second keeps its record. *)
Lemma update_replaces_the_record_witness :
  Products.editing Sample.productsEditing = Some Sample.pen
  ∧ Categories.editing Sample.categoriesEditing = Some Sample.stationery
  ∧ Products.id Sample.pen ∈ Products.id <$> Products.rows Sample.productsEditing
  ∧ Categories.id Sample.stationery
    ∈ Categories.id <$> Categories.rows Sample.categoriesEditing
  ∧ Products.rows
      (Products.settle
         (Products.putCall Sample.pen
            (Products.next "9" Sample.productDraft Sample.productsEditing))
         (JS.Fulfilled ()) Sample.productsEditing)
    = [Products.next "9" Sample.productDraft Sample.productsEditing; Sample.book]
  ∧ Categories.rows
      (Categories.settle
         (Categories.putCall Sample.stationery
            (Categories.next "9" Sample.categoryDraft Sample.categoriesEditing))
         (JS.Fulfilled ()) Sample.categoriesEditing) !! 1%nat
    = Some Sample.toys.
Proof.
  assert (Products.editing Sample.productsEditing = Some Sample.pen) as Hp0
    by reflexivity.
  assert (Categories.editing Sample.categoriesEditing = Some Sample.stationery)
    as Hc0 by reflexivity.
  assert (Products.id Sample.pen
          ∈ Products.id <$> Products.rows Sample.productsEditing) as Hp
    by decide_by_evaluation.
  assert (Categories.id Sample.stationery
          ∈ Categories.id <$> Categories.rows Sample.categoriesEditing) as Hc
    by decide_by_evaluation.
  destruct (update_replaces_the_record_in_place "9"
              Sample.pen Sample.productDraft
              Sample.productsEditing Sample.productsEditing
              Sample.stationery Sample.categoryDraft
              Sample.categoriesEditing Sample.categoriesEditing
              Hp0 Hc0 Hp Hc)
    as [(_ & _ & _ & _ & _ & _ & _) (_ & _ & _ & _ & HC & _)].
  split; [exact Hp0|]. split; [exact Hc0|]. split; [exact Hp|].
  split; [exact Hc|]. split; [reflexivity|].
  apply (HC 1%nat Sample.toys); [reflexivity | discriminate].
Defined.

(** C5.  Deleting a product opens the confirm dialog, whose OK starts the
    [delete] call; deleting a category starts the call at once.  When the
    call is fulfilled and the ids of the collection are unique and include
    the deleted id, no record with that id is left, the collection is one
    shorter, and the records left are the other records, in their order. *)
Theorem remove_drops_exactly_the_record
    (pid cid : string) (ps0 ps : Products.State) (cs0 cs : Categories.State) :
  Spec.unique_ids Products.id (Products.rows ps) →
  Spec.unique_ids Categories.id (Categories.rows cs) →
  pid ∈ Products.id <$> Products.rows ps →
  cid ∈ Categories.id <$> Categories.rows cs →
  (let ps' := Products.settle (Products.deleteCall pid) (JS.Fulfilled ()) ps in
   Products.dispatch (Products.onDelete pid) ps0
   = (ps0, [Products.ModalConfirm [Products.deleteCall pid]])
   ∧ (pid ∉ Products.id <$> Products.rows ps')
   ∧ S (length (Products.rows ps')) = length (Products.rows ps)
   ∧ (∀ r, r ∈ Products.rows ps' ↔ r ∈ Products.rows ps ∧ Products.id r ≠ pid)
   ∧ Products.rows ps' `sublist_of` Products.rows ps)
  ∧
  (let cs' := Categories.settle (Categories.deleteCall cid) (JS.Fulfilled ()) cs in
   Categories.dispatch (Categories.onDelete cid) cs0
   = (cs0, [Categories.deleteCall cid])
   ∧ (cid ∉ Categories.id <$> Categories.rows cs')
   ∧ S (length (Categories.rows cs')) = length (Categories.rows cs)
   ∧ (∀ r, r ∈ Categories.rows cs' ↔ r ∈ Categories.rows cs ∧ Categories.id r ≠ cid)
   ∧ Categories.rows cs' `sublist_of` Categories.rows cs).
Proof.
  unfold Spec.unique_ids. intros Hpu Hcu Hpin Hcin. split.
  - cbv zeta.
    assert (Products.rows
              (Products.settle (Products.deleteCall pid) (JS.Fulfilled ()) ps)
            = filter (λ r, Products.id r ≠ pid) (Products.rows ps)) as ->
      by (unfold Products.settle; by rewrite Products_openEffect_rows).
    split.
    { unfold Products.dispatch, Products.onDelete.
      by rewrite Products_openEffect_same_open. }
    split; [apply remove_gone|].
    split; [by apply remove_length|].
    split; [intros r; apply remove_keeps_others | apply sublist_filter].
  - cbv zeta.
    assert (Categories.rows
              (Categories.settle (Categories.deleteCall cid) (JS.Fulfilled ()) cs)
            = filter (λ r, Categories.id r ≠ cid) (Categories.rows cs)) as ->
      by done.
    split; [done|].
    split; [apply remove_gone|].
    split; [by apply remove_length|].
    split; [intros r; apply remove_keeps_others | apply sublist_filter].
Qed.

(** Deleting the first sample record of each screen leaves the second. *)
Lemma remove_drops_exactly_the_record_witness :
  Spec.unique_ids Products.id (Products.rows Sample.productsState)
  ∧ Spec.unique_ids Categories.id (Categories.rows Sample.categoriesState)
  ∧ "1" ∈ Products.id <$> Products.rows Sample.productsState
  ∧ "c1" ∈ Categories.id <$> Categories.rows Sample.categoriesState
  ∧ S (length (Products.rows
                 (Products.settle (Products.deleteCall "1") (JS.Fulfilled ())
                    Sample.productsState))) = 2%nat
  ∧ ("c1" ∉ Categories.id
             <$> Categories.rows
                   (Categories.settle (Categories.deleteCall "c1")
                      (JS.Fulfilled ()) Sample.categoriesState)).
Proof.
  assert (Spec.unique_ids Products.id (Products.rows Sample.productsState))
    as Hpu by decide_by_evaluation.
  assert (Spec.unique_ids Categories.id (Categories.rows Sample.categoriesState))
    as Hcu by decide_by_evaluation.
  assert ("1" ∈ Products.id <$> Products.rows Sample.productsState) as Hp
    by decide_by_evaluation.
  assert ("c1" ∈ Categories.id <$> Categories.rows Sample.categoriesState) as Hc
    by decide_by_evaluation.
  destruct (remove_drops_exactly_the_record "1" "c1"
              Sample.productsState Sample.productsState
              Sample.categoriesState Sample.categoriesState Hpu Hcu Hp Hc)
    as [(_ & _ & HP & _) (_ & HC & _)].
  split; [exact Hpu|]. split; [exact Hcu|]. split; [exact Hp|].
  split; [exact Hc|]. split; [exact HP | exact HC].
Defined.

(** C10.  When no record of the collection has the id, the replacement of
    the update and the filter of the delete both leave the collection as it
    was. *)
Theorem absent_id_leaves_the_collection_unchanged
    (pe pnext : Products.ProductRow) (pid : string) (ps : Products.State)
    (ce cnext : Categories.CategoryRow) (cid : string) (cs : Categories.State) :
  Products.id pe ∉ Products.id <$> Products.rows ps →
  pid ∉ Products.id <$> Products.rows ps →
  Categories.id ce ∉ Categories.id <$> Categories.rows cs →
  cid ∉ Categories.id <$> Categories.rows cs →
  (Products.rows (Products.settle (Products.putCall pe pnext) (JS.Fulfilled ()) ps)
   = Products.rows ps
   ∧ Products.rows (Products.settle (Products.deleteCall pid) (JS.Fulfilled ()) ps)
     = Products.rows ps)
  ∧
  (Categories.rows
     (Categories.settle (Categories.putCall ce cnext) (JS.Fulfilled ()) cs)
   = Categories.rows cs
   ∧ Categories.rows
       (Categories.settle (Categories.deleteCall cid) (JS.Fulfilled ()) cs)
     = Categories.rows cs).
Proof.
  intros Hpe Hpid Hce Hcid. split.
  - unfold Products.settle. rewrite !Products_openEffect_rows. simpl.
    split; [by apply replace_absent | by apply remove_absent].
  - simpl. split; [by apply replace_absent | by apply remove_absent].
Qed.

(** Updating or deleting with ids that the sample collections do not hold. *)
Lemma absent_id_leaves_the_collection_unchanged_witness :
  (Products.id (Products.next "7" Sample.productDraft Sample.productsState)
     ∉ Products.id <$> Products.rows Sample.productsState)
  ∧ ("8" ∉ Products.id <$> Products.rows Sample.productsState)
  ∧ (Categories.id (Categories.next "7" Sample.categoryDraft Sample.categoriesState)
       ∉ Categories.id <$> Categories.rows Sample.categoriesState)
  ∧ ("8" ∉ Categories.id <$> Categories.rows Sample.categoriesState)
  ∧ Products.rows
      (Products.settle (Products.deleteCall "8") (JS.Fulfilled ())
         Sample.productsState) = Sample.products
  ∧ Categories.rows
      (Categories.settle
         (Categories.putCall
            (Categories.next "7" Sample.categoryDraft Sample.categoriesState)
            Sample.toys)
         (JS.Fulfilled ()) Sample.categoriesState) = Sample.categories.
Proof.
  assert (Products.id (Products.next "7" Sample.productDraft Sample.productsState)
          ∉ Products.id <$> Products.rows Sample.productsState) as Hpe
    by decide_by_evaluation.
  assert ("8" ∉ Products.id <$> Products.rows Sample.productsState) as Hpid
    by decide_by_evaluation.
  assert (Categories.id
            (Categories.next "7" Sample.categoryDraft Sample.categoriesState)
          ∉ Categories.id <$> Categories.rows Sample.categoriesState) as Hce
    by decide_by_evaluation.
  assert ("8" ∉ Categories.id <$> Categories.rows Sample.categoriesState) as Hcid
    by decide_by_evaluation.
  destruct (absent_id_leaves_the_collection_unchanged
              (Products.next "7" Sample.productDraft Sample.productsState)
              Sample.book "8" Sample.productsState
              (Categories.next "7" Sample.categoryDraft Sample.categoriesState)
              Sample.toys "8" Sample.categoriesState Hpe Hpid Hce Hcid)
    as [[_ HP] [HC _]].
  split; [exact Hpe|]. split; [exact Hpid|]. split; [exact Hce|].
  split; [exact Hcid|]. split; [exact HP | exact HC].
Defined.

(** ** The form *)

(** When the browser's check and every rule pass, the submit button runs
    [onSubmit] on the validated values. *)
Lemma Products_Form_submit_valid (uuid : string) (f : Products.FormStore)
    (values : Products.Values) (st : Products.State) :
  Products.priceInput_checkValidity (Products.f_price f) = true →
  Products.validateFields f = Some values →
  Products.Form_submit uuid f st = Products.onSubmit uuid values st.
Proof.
  intros Hdom Hvalid. unfold Products.Form_submit. by rewrite Hdom, Hvalid.
Qed.

Lemma Categories_Form_submit_valid (uuid : string) (f : Categories.FormStore)
    (values : Categories.Values) (st : Categories.State) :
  Categories.validateFields f = Some values →
  Categories.Form_submit uuid f st = Categories.onSubmit uuid values st.
Proof. intros Hvalid. unfold Categories.Form_submit. by rewrite Hvalid. Qed.

(** A filled-in create form does start the [post]. *)
Lemma Products_Form_submit_filled :
  Products.Form_submit "3"
    {| Products.f_code := Some "C7"; Products.f_name := Some "Ruler";
       Products.f_category := Some "c1"; Products.f_price := Some 4%float;
       Products.f_status := Some Products.active |}
    Sample.productsState
  = (Sample.productsState,
     [Products.Axios
        (Products.postCall
           (Products.next "3" Sample.productDraft Sample.productsState))]).
Proof. reflexivity. Qed.

Lemma requiredString_empty (v : option string) :
  v = None ∨ v = Some "" → Products.requiredString v = None.
Proof. by intros [->| ->]. Qed.

(** C6.  A submit whose [name] field is undefined or empty fails the
    [required] rule: the handler starts no call and leaves the state, and so
    the collection, as it was.  This holds for a create and for an edit. *)
Theorem empty_name_is_rejected_before_any_call
    (uuid : string) (pf : Products.FormStore) (ps : Products.State)
    (cf : Categories.FormStore) (cs : Categories.State) :
  Products.f_name pf = None ∨ Products.f_name pf = Some "" →
  Categories.f_name cf = None ∨ Categories.f_name cf = Some "" →
  Products.dispatch (Products.Form_submit uuid pf) ps = (ps, [])
  ∧ Categories.dispatch (Categories.Form_submit uuid cf) cs = (cs, []).
Proof.
  intros Hp Hc. split.
  - unfold Products.dispatch, Products.Form_submit, Products.validateFields.
    rewrite (requiredString_empty (Products.f_name pf)) by done.
    destruct (Products.priceInput_checkValidity (Products.f_price pf));
      [|by rewrite Products_openEffect_same_open].
    destruct (Products.requiredString (Products.f_code pf)); simpl;
      by rewrite Products_openEffect_same_open.
  - unfold Categories.dispatch, Categories.Form_submit, Categories.validateFields.
    change Categories.requiredString with Products.requiredString.
    by rewrite (requiredString_empty (Categories.f_name cf)).
Qed.

(** The blank create form of each screen, submitted as it opens. *)
Lemma empty_name_is_rejected_witness :
  (Products.f_name (Products.initialValues Sample.productsState) = None
   ∨ Products.f_name (Products.initialValues Sample.productsState) = Some "")
  ∧ (Categories.f_name (Categories.initialValues Sample.categoriesState) = None
     ∨ Categories.f_name (Categories.initialValues Sample.categoriesState) = Some "")
  ∧ Products.dispatch
      (Products.Form_submit "3" (Products.initialValues Sample.productsState))
      Sample.productsState
    = (Sample.productsState, [])
  ∧ Categories.dispatch
      (Categories.Form_submit "3" (Categories.initialValues Sample.categoriesState))
      Sample.categoriesState
    = (Sample.categoriesState, []).
Proof.
  assert (Products.f_name (Products.initialValues Sample.productsState) = None
          ∨ Products.f_name (Products.initialValues Sample.productsState) = Some "")
    as Hp by (left; reflexivity).
  assert (Categories.f_name (Categories.initialValues Sample.categoriesState) = None
          ∨ Categories.f_name (Categories.initialValues Sample.categoriesState)
            = Some "")
    as Hc by (left; reflexivity).
  split; [exact Hp|]. split; [exact Hc|].
  exact (empty_name_is_rejected_before_any_call "3"
           (Products.initialValues Sample.productsState) Sample.productsState
           (Categories.initialValues Sample.categoriesState) Sample.categoriesState
           Hp Hc).
Defined.

(** ** The image upload *)

(** C7.  The upload waits for one request, the form post to the image host.
    When it is rejected, one line is written to the console and the state,
    and with it the staged image URL, stays as it was; when it is fulfilled,
    the [secure_url] of the response becomes the staged image URL.  Either
    way the state changes in [imageUrl] at most (the collection, the form's
    open flag and the edited record stay), nothing but the console line is
    produced, and the function returns [false]. *)
Theorem upload_stages_the_url_or_logs_the_error
    (env : Products.ImportMetaEnv) (file : Products.File) (st : Products.State)
    (res : Products.UploadData) (err : string) :
  Products.awaited (Products.handleUploadToCloudinary env file)
  = Products.PostForm
      ("https://api.cloudinary.com/v1_1/" +:+ Products.VITE_CLOUD_NAME env
         +:+ "/image/upload")
      file (Products.VITE_UPLOAD_PRESET env)
  ∧ Products.settleUpload (Products.handleUploadToCloudinary env file)
      (JS.Rejected err) st
    = (st, [("Upload failed:", err)], false)
  ∧ Products.settleUpload (Products.handleUploadToCloudinary env file)
      (JS.Fulfilled res) st
    = ({| Products.rows := Products.rows st;
          Products.categories := Products.categories st;
          Products.search := Products.search st;
          Products.statusFilter := Products.statusFilter st;
          Products.page := Products.page st;
          Products.open := Products.open st;
          Products.editing := Products.editing st;
          Products.imageUrl := Products.secure_url res |}, [], false)
  ∧ (∀ o,
       Products.rows
         (Products.settleUpload (Products.handleUploadToCloudinary env file) o st).1.1
       = Products.rows st
       ∧ Products.open
           (Products.settleUpload (Products.handleUploadToCloudinary env file) o st).1.1
         = Products.open st
       ∧ Products.editing
           (Products.settleUpload (Products.handleUploadToCloudinary env file) o st).1.1
         = Products.editing st
       ∧ (Products.settleUpload (Products.handleUploadToCloudinary env file) o st).2
         = false).
Proof.
  split; [done|].
  split; [unfold Products.settleUpload; simpl;
          by rewrite Products_openEffect_same_open|].
  split; [unfold Products.settleUpload; simpl;
          by rewrite Products_openEffect_same_open|].
  intros o. unfold Products.settleUpload.
  destruct o as [res'|err']; simpl;
    by rewrite Products_openEffect_same_open.
Qed.

(** ** Search and filter inputs *)

(** C8.  Typing in the search box changes [search] and nothing else; choosing
    or clearing the status changes [statusFilter] and nothing else.  Neither
    starts a call, and the current page stays what it was. *)
Theorem search_and_filter_changes_keep_the_page
    (ps : Products.State) (cs : Categories.State) (value : string)
    (pf : option Products.ProductStatus) (cf : option Categories.CategoryStatus) :
  (Products.dispatch (Products.search_onChange value) ps
   = ({| Products.rows := Products.rows ps;
         Products.categories := Products.categories ps;
         Products.search := value;
         Products.statusFilter := Products.statusFilter ps;
         Products.page := Products.page ps;
         Products.open := Products.open ps;
         Products.editing := Products.editing ps;
         Products.imageUrl := Products.imageUrl ps |}, [])
   ∧ Products.dispatch (Products.statusFilter_onChange pf) ps
     = ({| Products.rows := Products.rows ps;
           Products.categories := Products.categories ps;
           Products.search := Products.search ps;
           Products.statusFilter := pf;
           Products.page := Products.page ps;
           Products.open := Products.open ps;
           Products.editing := Products.editing ps;
           Products.imageUrl := Products.imageUrl ps |}, [])
   ∧ Products.page (Products.dispatch (Products.search_onChange value) ps).1
     = Products.page ps
   ∧ Products.page (Products.dispatch (Products.statusFilter_onChange pf) ps).1
     = Products.page ps)
  ∧
  (Categories.dispatch (Categories.search_onChange value) cs
   = ({| Categories.rows := Categories.rows cs;
         Categories.search := value;
         Categories.statusFilter := Categories.statusFilter cs;
         Categories.page := Categories.page cs;
         Categories.open := Categories.open cs;
         Categories.editing := Categories.editing cs |}, [])
   ∧ Categories.dispatch (Categories.statusFilter_onChange cf) cs
     = ({| Categories.rows := Categories.rows cs;
           Categories.search := Categories.search cs;
           Categories.statusFilter := cf;
           Categories.page := Categories.page cs;
           Categories.open := Categories.open cs;
           Categories.editing := Categories.editing cs |}, [])
   ∧ Categories.page (Categories.dispatch (Categories.search_onChange value) cs).1
     = Categories.page cs
   ∧ Categories.page
       (Categories.dispatch (Categories.statusFilter_onChange cf) cs).1
     = Categories.page cs).
Proof.
  assert (Products.dispatch (Products.search_onChange value) ps
          = (Products.setSearch value ps, [])) as Hsearch
    by (unfold Products.dispatch; simpl;
        by rewrite Products_openEffect_same_open).
  assert (Products.dispatch (Products.statusFilter_onChange pf) ps
          = (Products.setStatusFilter pf ps, [])) as Hfilter
    by (unfold Products.dispatch; simpl;
        rewrite Products_openEffect_same_open by done; by destruct pf).
  split.
  - rewrite Hsearch, Hfilter. done.
  - by destruct cf.
Qed.

(** ** Rejected calls *)

(** No call has a [catch]: a rejected promise leaves the state as it was. *)
Lemma rejected_call_changes_nothing
    (pc : Products.Call) (ps : Products.State)
    (cc : Categories.Call) (cs : Categories.State) (err : string) :
  Products.settle pc (JS.Rejected err) ps = ps
  ∧ Categories.settle cc (JS.Rejected err) cs = cs.
Proof. done. Qed.

(** ** Scenarios of the specification *)

(** Searching ["pen"] shows the first record; filtering on inactive with an
    empty search shows the second. *)
Lemma scenario_search_and_status :
  Products.filtered JS.toLowerCase_basic Sample.products "pen" None = [Sample.pen]
  ∧ Products.filtered JS.toLowerCase_basic Sample.products "" (Some Products.inactive) = [Sample.book].
Proof. split; reflexivity. Qed.

(** The searchable text of a product is name and code with nothing between
    them, so a search text may match across the two. *)
Lemma scenario_search_across_name_and_code :
  Products.filtered JS.toLowerCase_basic Sample.products "NA" None = [Sample.pen].
Proof. reflexivity. Qed.

(** Seven records, page two: the records six and seven are shown, and the
    pagination is told seven. *)
Lemma scenario_second_page_of_seven :
  let st := Categories.setPage 2
              (Categories.setRows (λ _, Sample.seven) Categories.init) in
  Categories.dataSource JS.toLowerCase_basic st = [Sample.numbered 6; Sample.numbered 7]
  ∧ Categories.total JS.toLowerCase_basic st = 7%nat.
Proof. split; reflexivity. Qed.

(** On page two of the seven, a search that leaves one record shows an empty
    page although one record matches. *)
Lemma scenario_search_on_a_later_page :
  let st := Categories.setPage 2
              (Categories.setRows (λ _, Sample.seven) Categories.init) in
  let st' := (Categories.dispatch (Categories.search_onChange "item 3") st).1 in
  Categories.page st' = 2
  ∧ Categories.total JS.toLowerCase_basic st' = 1%nat
  ∧ Categories.dataSource JS.toLowerCase_basic st' = [].
Proof. repeat split; reflexivity. Qed.

(** A successful create closes the form, and closing the form clears the
    staged image. *)
Lemma scenario_create_closes_the_form :
  let next := Products.next "3" Sample.productDraft Sample.productsEditing in
  let st := Products.settle (Products.postCall next) (JS.Fulfilled ())
              Sample.productsEditing in
  Products.open st = false ∧ Products.imageUrl st = "".
Proof. split; reflexivity. Qed.

(** * Further properties of the components *)

(** ** How the reconciliations compose *)

Section reconcile_compose.
Context {R : Type} (id : R → string).
Implicit Types (l prev : list R) (x y : string) (next r : R).

(** Replacing by a record that carries the replaced id leaves the column of
    ids as it was. *)
Lemma replace_ids prev x next :
  id next = x →
  id <$> ((λ r, if bool_decide (id r = x) then next else r) <$> prev)
  = id <$> prev.
Proof.
  intros Hid. rewrite <- list_fmap_compose. apply list_fmap_ext.
  intros i r _. simpl. by case_bool_decide; [rewrite Hid|].
Qed.

Lemma remove_keeps_unique prev x :
  NoDup (id <$> prev) → NoDup (id <$> filter (λ r, id r ≠ x) prev).
Proof.
  intros Hnodup. eapply sublist_NoDup; [exact Hnodup|].
  apply fmap_sublist, sublist_filter.
Qed.

Lemma append_then_remove prev x next :
  x ∉ id <$> prev → id next = x →
  filter (λ r, id r ≠ x) (prev ++ [next]) = prev.
Proof.
  intros Hnot Hid. rewrite filter_app, remove_absent by done.
  rewrite filter_cons_False by (intros Hne; by apply Hne).
  by rewrite filter_nil, app_nil_r.
Qed.

Lemma append_used_id prev x next :
  x ∈ id <$> prev → id next = x → ¬ NoDup (id <$> prev ++ [next]).
Proof.
  intros Hin Hid. rewrite fmap_app, NoDup_app. intros (_ & Hdisj & _).
  apply (Hdisj x Hin). simpl. rewrite Hid. by left.
Qed.

Lemma replace_twice prev x next1 next2 :
  id next1 = x →
  (λ r, if bool_decide (id r = x) then next2 else r)
    <$> ((λ r, if bool_decide (id r = x) then next1 else r) <$> prev)
  = (λ r, if bool_decide (id r = x) then next2 else r) <$> prev.
Proof.
  intros Hid. rewrite <- list_fmap_compose. apply list_fmap_ext.
  intros i r _. simpl. destruct (decide (id r = x)) as [Hr|Hr].
  - rewrite (bool_decide_eq_true_2 (id r = x)) by done.
    by rewrite bool_decide_eq_true_2.
  - by rewrite !(bool_decide_eq_false_2 (id r = x)).
Qed.

Lemma replace_then_remove prev x next :
  id next = x →
  filter (λ r, id r ≠ x) ((λ r, if bool_decide (id r = x) then next else r) <$> prev)
  = filter (λ r, id r ≠ x) prev.
Proof.
  intros Hid. induction prev as [|r prev IH]; [done|].
  rewrite fmap_cons. case_bool_decide as Hr.
  - rewrite !filter_cons_False by (intros Hne; apply Hne; congruence). done.
  - rewrite !filter_cons_True by done. by rewrite IH.
Qed.

Lemma remove_then_replace prev x next :
  (λ r, if bool_decide (id r = x) then next else r) <$> filter (λ r, id r ≠ x) prev
  = filter (λ r, id r ≠ x) prev.
Proof. apply replace_absent, remove_gone. Qed.

Lemma remove_remove prev x y :
  filter (λ r, id r ≠ x) (filter (λ r, id r ≠ y) prev)
  = filter (λ r, id r ≠ y) (filter (λ r, id r ≠ x) prev).
Proof. rewrite !list_filter_filter. apply list_filter_iff. tauto. Qed.

Lemma remove_again prev x :
  filter (λ r, id r ≠ x) (filter (λ r, id r ≠ x) prev)
  = filter (λ r, id r ≠ x) prev.
Proof. apply remove_absent, remove_gone. Qed.

(** Under unique ids, replacing a record of the list by itself changes
    nothing. *)
Lemma replace_by_itself prev row :
  NoDup (id <$> prev) → row ∈ prev →
  (λ r, if bool_decide (id r = id row) then row else r) <$> prev = prev.
Proof.
  intros Hnodup Hrow. rewrite <- (list_fmap_id prev) at 2.
  apply list_fmap_ext. intros i r Hi. simpl. case_bool_decide as Hr; [|done].
  apply list_elem_of_lookup in Hrow as [j Hj].
  assert ((id <$> prev) !! i = Some (id r)) as Hi' by (by rewrite list_lookup_fmap, Hi).
  assert ((id <$> prev) !! j = Some (id r)) as Hj'
    by (by rewrite list_lookup_fmap, Hj, Hr).
  pose proof (NoDup_lookup _ _ _ _ Hnodup Hi' Hj') as ->. congruence.
Qed.

End reconcile_compose.

Lemma Products_settle_rows (c : Products.Call) (res : Products.response c)
    (st : Products.State) :
  Products.rows (Products.settle c (JS.Fulfilled res) st)
  = Products.rows (Products.onFulfilled c res st).
Proof. apply Products_openEffect_rows. Qed.

Lemma Products_next_id_edit (uuid : string) (pv : Products.Values)
    (ps0 : Products.State) (pe : Products.ProductRow) :
  Products.editing ps0 = Some pe →
  Products.id (Products.next uuid pv ps0) = Products.id pe.
Proof. intros Hp0. unfold Products.next. by rewrite Hp0. Qed.

Lemma Products_next_id_create (uuid : string) (pv : Products.Values)
    (ps0 : Products.State) :
  Products.editing ps0 = None →
  Products.id (Products.next uuid pv ps0) = uuid.
Proof. intros Hp0. unfold Products.next. by rewrite Hp0. Qed.

Lemma Categories_next_id_edit (uuid : string) (cv : Categories.Values)
    (cs0 : Categories.State) (ce : Categories.CategoryRow) :
  Categories.editing cs0 = Some ce →
  Categories.id (Categories.next uuid cv cs0) = Categories.id ce.
Proof. intros Hc0. unfold Categories.next. by rewrite Hc0. Qed.

Lemma Categories_next_id_create (uuid : string) (cv : Categories.Values)
    (cs0 : Categories.State) :
  Categories.editing cs0 = None →
  Categories.id (Categories.next uuid cv cs0) = uuid.
Proof. intros Hc0. unfold Categories.next. by rewrite Hc0. Qed.

(** After [settle_rows] the collection of a settled state is written as the
    list update of the callback. *)
Ltac settle_rows :=
  repeat (rewrite Products_settle_rows; cbn [Products.onFulfilled
    Products.putCall Products.postCall Products.deleteCall Products.fetchProducts
    Products.fetchCategories Products.setRows Products.setOpen
    Products.setCategories Products.rows]);
  cbn [Categories.settle Categories.onFulfilled Categories.putCall
    Categories.postCall Categories.deleteCall Categories.fetchCategories
    Categories.setRows Categories.setOpen Categories.rows].

(** An update or a delete, fulfilled or rejected, keeps the ids of the
    collection unique; an update does not change the column of ids at all,
    because the record it writes carries the id of the record it replaces. *)
Theorem update_and_delete_keep_ids_unique
    (uuid pid cid : string) (o : JS.Outcome ())
    (pe : Products.ProductRow) (pv : Products.Values) (ps0 ps : Products.State)
    (ce : Categories.CategoryRow) (cv : Categories.Values)
    (cs0 cs : Categories.State) :
  Products.editing ps0 = Some pe →
  Categories.editing cs0 = Some ce →
  Spec.unique_ids Products.id (Products.rows ps) →
  Spec.unique_ids Categories.id (Categories.rows cs) →
  (Products.id
     <$> Products.rows
           (Products.settle
              (Products.putCall pe (Products.next uuid pv ps0)) o ps)
   = Products.id <$> Products.rows ps
   ∧ Spec.unique_ids Products.id
       (Products.rows
          (Products.settle
             (Products.putCall pe (Products.next uuid pv ps0)) o ps))
   ∧ Spec.unique_ids Products.id
       (Products.rows (Products.settle (Products.deleteCall pid) o ps)))
  ∧
  (Categories.id
     <$> Categories.rows
           (Categories.settle
              (Categories.putCall ce (Categories.next uuid cv cs0)) o cs)
   = Categories.id <$> Categories.rows cs
   ∧ Spec.unique_ids Categories.id
       (Categories.rows
          (Categories.settle
             (Categories.putCall ce (Categories.next uuid cv cs0)) o cs))
   ∧ Spec.unique_ids Categories.id
       (Categories.rows (Categories.settle (Categories.deleteCall cid) o cs))).
Proof.
  unfold Spec.unique_ids. intros Hp0 Hc0 Hpu Hcu.
  pose proof (Products_next_id_edit uuid pv ps0 pe Hp0) as Hpid.
  pose proof (Categories_next_id_edit uuid cv cs0 ce Hc0) as Hcid.
  destruct o as [[]|err]; [|done]. settle_rows.
  rewrite !replace_ids by done.
  split; (split; [done|]); (split; [done|]); by apply remove_keeps_unique.
Qed.

Lemma update_and_delete_keep_ids_unique_witness :
  Products.editing Sample.productsEditing = Some Sample.pen
  ∧ Categories.editing Sample.categoriesEditing = Some Sample.stationery
  ∧ Spec.unique_ids Products.id (Products.rows Sample.productsEditing)
  ∧ Spec.unique_ids Categories.id (Categories.rows Sample.categoriesEditing)
  ∧ Products.id
      <$> Products.rows
            (Products.settle
               (Products.putCall Sample.pen
                  (Products.next "9" Sample.productDraft Sample.productsEditing))
               (JS.Fulfilled ()) Sample.productsEditing)
    = ["1"; "2"]
  ∧ Spec.unique_ids Categories.id
      (Categories.rows
         (Categories.settle (Categories.deleteCall "c2") (JS.Fulfilled ())
            Sample.categoriesEditing)).
Proof.
  assert (Products.editing Sample.productsEditing = Some Sample.pen) as Hp0
    by reflexivity.
  assert (Categories.editing Sample.categoriesEditing = Some Sample.stationery)
    as Hc0 by reflexivity.
  assert (Spec.unique_ids Products.id (Products.rows Sample.productsEditing))
    as Hpu by decide_by_evaluation.
  assert (Spec.unique_ids Categories.id (Categories.rows Sample.categoriesEditing))
    as Hcu by decide_by_evaluation.
  destruct (update_and_delete_keep_ids_unique "9" "2" "c2" (JS.Fulfilled ())
              Sample.pen Sample.productDraft
              Sample.productsEditing Sample.productsEditing
              Sample.stationery Sample.categoryDraft
              Sample.categoriesEditing Sample.categoriesEditing
              Hp0 Hc0 Hpu Hcu)
    as [(HP & _ & _) (_ & _ & HC)].
  split; [exact Hp0|]. split; [exact Hc0|]. split; [exact Hpu|].
  split; [exact Hcu|]. split; [exact HP | exact HC].
Defined.

(** A create keeps the ids unique exactly when the new id is not already an
    id of the collection: the code appends without looking. *)
Theorem create_keeps_ids_unique_iff_the_id_is_new
    (uuid : string)
    (pv : Products.Values) (ps0 ps : Products.State)
    (cv : Categories.Values) (cs0 cs : Categories.State) :
  Products.editing ps0 = None →
  Categories.editing cs0 = None →
  Spec.unique_ids Products.id (Products.rows ps) →
  Spec.unique_ids Categories.id (Categories.rows cs) →
  (Spec.unique_ids Products.id
     (Products.rows
        (Products.settle (Products.postCall (Products.next uuid pv ps0))
           (JS.Fulfilled ()) ps))
   ↔ uuid ∉ Products.id <$> Products.rows ps)
  ∧
  (Spec.unique_ids Categories.id
     (Categories.rows
        (Categories.settle (Categories.postCall (Categories.next uuid cv cs0))
           (JS.Fulfilled ()) cs))
   ↔ uuid ∉ Categories.id <$> Categories.rows cs).
Proof.
  unfold Spec.unique_ids. intros Hp0 Hc0 Hpu Hcu.
  pose proof (Products_next_id_create uuid pv ps0 Hp0) as Hpid.
  pose proof (Categories_next_id_create uuid cv cs0 Hc0) as Hcid.
  settle_rows. split.
  - split.
    + intros Hnodup Hin. by eapply (append_used_id Products.id).
    + intros Hnot. by apply append_keeps_unique with uuid.
  - split.
    + intros Hnodup Hin. by eapply (append_used_id Categories.id).
    + intros Hnot. by apply append_keeps_unique with uuid.
Qed.

(** The id ["3"] is new and keeps the sample ids unique; the id ["1"] is in
    use and gives the products two records with that id. *)
Lemma create_keeps_ids_unique_iff_the_id_is_new_witness :
  Products.editing Sample.productsState = None
  ∧ Categories.editing Sample.categoriesState = None
  ∧ Spec.unique_ids Products.id (Products.rows Sample.productsState)
  ∧ Spec.unique_ids Categories.id (Categories.rows Sample.categoriesState)
  ∧ Spec.unique_ids Categories.id
      (Categories.rows
         (Categories.settle
            (Categories.postCall
               (Categories.next "3" Sample.categoryDraft Sample.categoriesState))
            (JS.Fulfilled ()) Sample.categoriesState))
  ∧ ¬ Spec.unique_ids Products.id
        (Products.rows
           (Products.settle
              (Products.postCall
                 (Products.next "1" Sample.productDraft Sample.productsState))
              (JS.Fulfilled ()) Sample.productsState)).
Proof.
  assert (Products.editing Sample.productsState = None) as Hp0 by reflexivity.
  assert (Categories.editing Sample.categoriesState = None) as Hc0 by reflexivity.
  assert (Spec.unique_ids Products.id (Products.rows Sample.productsState))
    as Hpu by decide_by_evaluation.
  assert (Spec.unique_ids Categories.id (Categories.rows Sample.categoriesState))
    as Hcu by decide_by_evaluation.
  split; [exact Hp0|]. split; [exact Hc0|]. split; [exact Hpu|].
  split; [exact Hcu|]. split.
  - apply (create_keeps_ids_unique_iff_the_id_is_new "3"
             Sample.productDraft Sample.productsState Sample.productsState
             Sample.categoryDraft Sample.categoriesState Sample.categoriesState
             Hp0 Hc0 Hpu Hcu).
    decide_by_evaluation.
  - intros Hunique.
    apply (create_keeps_ids_unique_iff_the_id_is_new "1"
             Sample.productDraft Sample.productsState Sample.productsState
             Sample.categoryDraft Sample.categoriesState Sample.categoriesState
             Hp0 Hc0 Hpu Hcu) in Hunique.
    apply Hunique. decide_by_evaluation.
Defined.

(** Creating a record under a new id and then deleting that id gives the
    collection back as it was. *)
Theorem delete_undoes_create
    (uuid : string)
    (pv : Products.Values) (ps0 ps : Products.State)
    (cv : Categories.Values) (cs0 cs : Categories.State) :
  Products.editing ps0 = None →
  Categories.editing cs0 = None →
  uuid ∉ Products.id <$> Products.rows ps →
  uuid ∉ Categories.id <$> Categories.rows cs →
  Products.rows
    (Products.settle (Products.deleteCall uuid) (JS.Fulfilled ())
       (Products.settle (Products.postCall (Products.next uuid pv ps0))
          (JS.Fulfilled ()) ps))
  = Products.rows ps
  ∧ Categories.rows
      (Categories.settle (Categories.deleteCall uuid) (JS.Fulfilled ())
         (Categories.settle (Categories.postCall (Categories.next uuid cv cs0))
            (JS.Fulfilled ()) cs))
    = Categories.rows cs.
Proof.
  intros Hp0 Hc0 Hp Hc. settle_rows.
  split; apply append_then_remove; try done.
  - by apply Products_next_id_create.
  - by apply Categories_next_id_create.
Qed.

Lemma delete_undoes_create_witness :
  Products.editing Sample.productsState = None
  ∧ Categories.editing Sample.categoriesState = None
  ∧ ("3" ∉ Products.id <$> Products.rows Sample.productsState)
  ∧ ("3" ∉ Categories.id <$> Categories.rows Sample.categoriesState)
  ∧ Products.rows
      (Products.settle (Products.deleteCall "3") (JS.Fulfilled ())
         (Products.settle
            (Products.postCall
               (Products.next "3" Sample.productDraft Sample.productsState))
            (JS.Fulfilled ()) Sample.productsState))
    = Sample.products.
Proof.
  assert (Products.editing Sample.productsState = None) as Hp0 by reflexivity.
  assert (Categories.editing Sample.categoriesState = None) as Hc0 by reflexivity.
  assert ("3" ∉ Products.id <$> Products.rows Sample.productsState) as Hp
    by decide_by_evaluation.
  assert ("3" ∉ Categories.id <$> Categories.rows Sample.categoriesState) as Hc
    by decide_by_evaluation.
  split; [exact Hp0|]. split; [exact Hc0|]. split; [exact Hp|].
  split; [exact Hc|].
  exact (proj1 (delete_undoes_create "3"
                  Sample.productDraft Sample.productsState Sample.productsState
                  Sample.categoryDraft Sample.categoriesState
                  Sample.categoriesState Hp0 Hc0 Hp Hc)).
Defined.

(** Two updates of the same record that are both in flight: the collection
    ends as the update that settles last leaves it, whichever was submitted
    first.  A delete of that record wins over an update in either order. *)
Theorem last_settled_update_wins
    (u1 u2 : string)
    (pe : Products.ProductRow) (pv1 pv2 : Products.Values)
    (ps1 ps2 ps : Products.State)
    (ce : Categories.CategoryRow) (cv1 cv2 : Categories.Values)
    (cs1 cs2 cs : Categories.State) :
  Products.editing ps1 = Some pe →
  Products.editing ps2 = Some pe →
  Categories.editing cs1 = Some ce →
  Categories.editing cs2 = Some ce →
  (Products.rows
     (Products.settle (Products.putCall pe (Products.next u2 pv2 ps2))
        (JS.Fulfilled ())
        (Products.settle (Products.putCall pe (Products.next u1 pv1 ps1))
           (JS.Fulfilled ()) ps))
   = Products.rows
       (Products.settle (Products.putCall pe (Products.next u2 pv2 ps2))
          (JS.Fulfilled ()) ps)
   ∧ Products.rows
       (Products.settle (Products.deleteCall (Products.id pe)) (JS.Fulfilled ())
          (Products.settle (Products.putCall pe (Products.next u1 pv1 ps1))
             (JS.Fulfilled ()) ps))
     = Products.rows
         (Products.settle (Products.deleteCall (Products.id pe))
            (JS.Fulfilled ()) ps)
   ∧ Products.rows
       (Products.settle (Products.putCall pe (Products.next u1 pv1 ps1))
          (JS.Fulfilled ())
          (Products.settle (Products.deleteCall (Products.id pe))
             (JS.Fulfilled ()) ps))
     = Products.rows
         (Products.settle (Products.deleteCall (Products.id pe))
            (JS.Fulfilled ()) ps))
  ∧
  (Categories.rows
     (Categories.settle (Categories.putCall ce (Categories.next u2 cv2 cs2))
        (JS.Fulfilled ())
        (Categories.settle (Categories.putCall ce (Categories.next u1 cv1 cs1))
           (JS.Fulfilled ()) cs))
   = Categories.rows
       (Categories.settle (Categories.putCall ce (Categories.next u2 cv2 cs2))
          (JS.Fulfilled ()) cs)
   ∧ Categories.rows
       (Categories.settle (Categories.deleteCall (Categories.id ce))
          (JS.Fulfilled ())
          (Categories.settle (Categories.putCall ce (Categories.next u1 cv1 cs1))
             (JS.Fulfilled ()) cs))
     = Categories.rows
         (Categories.settle (Categories.deleteCall (Categories.id ce))
            (JS.Fulfilled ()) cs)
   ∧ Categories.rows
       (Categories.settle (Categories.putCall ce (Categories.next u1 cv1 cs1))
          (JS.Fulfilled ())
          (Categories.settle (Categories.deleteCall (Categories.id ce))
             (JS.Fulfilled ()) cs))
     = Categories.rows
         (Categories.settle (Categories.deleteCall (Categories.id ce))
            (JS.Fulfilled ()) cs)).
Proof.
  intros Hp1 Hp2 Hc1 Hc2.
  pose proof (Products_next_id_edit u1 pv1 ps1 pe Hp1) as Hpid.
  pose proof (Categories_next_id_edit u1 cv1 cs1 ce Hc1) as Hcid.
  settle_rows. split.
  - split; [by apply replace_twice|].
    split; [by apply replace_then_remove | apply remove_then_replace].
  - split; [by apply replace_twice|].
    split; [by apply replace_then_remove | apply remove_then_replace].
Qed.

(** Two saves of the first sample product: the one that settles last is the
    one the collection shows. *)
Lemma last_settled_update_wins_witness :
  Products.editing Sample.productsEditing = Some Sample.pen
  ∧ Categories.editing Sample.categoriesEditing = Some Sample.stationery
  ∧ Products.name
      <$> Products.rows
            (Products.settle
               (Products.putCall Sample.pen
                  (Products.next "9" Sample.productDraft Sample.productsEditing))
               (JS.Fulfilled ())
               (Products.settle
                  (Products.putCall Sample.pen
                     (Products.next "9"
                        {| Products.v_code := "A1"; Products.v_name := "Pencil";
                           Products.v_category := "c1";
                           Products.v_price := 2%float;
                           Products.v_status := Products.inactive |}
                        Sample.productsEditing))
                  (JS.Fulfilled ()) Sample.productsEditing))
    = ["Ruler"; "Book"].
Proof.
  assert (Products.editing Sample.productsEditing = Some Sample.pen) as Hp0
    by reflexivity.
  assert (Categories.editing Sample.categoriesEditing = Some Sample.stationery)
    as Hc0 by reflexivity.
  split; [exact Hp0|]. split; [exact Hc0|].
  rewrite (proj1 (proj1 (last_settled_update_wins "9" "9" Sample.pen
             {| Products.v_code := "A1"; Products.v_name := "Pencil";
                Products.v_category := "c1"; Products.v_price := 2%float;
                Products.v_status := Products.inactive |}
             Sample.productDraft
             Sample.productsEditing Sample.productsEditing Sample.productsEditing
             Sample.stationery Sample.categoryDraft Sample.categoryDraft
             Sample.categoriesEditing Sample.categoriesEditing
             Sample.categoriesEditing Hp0 Hp0 Hc0 Hc0))).
  reflexivity.
Defined.

(** Deletes commute, and deleting the same id again changes nothing. *)
Theorem deletes_commute_and_repeat_harmlessly
    (x y : string) (ps : Products.State) (cs : Categories.State) :
  (Products.rows
     (Products.settle (Products.deleteCall x) (JS.Fulfilled ())
        (Products.settle (Products.deleteCall y) (JS.Fulfilled ()) ps))
   = Products.rows
       (Products.settle (Products.deleteCall y) (JS.Fulfilled ())
          (Products.settle (Products.deleteCall x) (JS.Fulfilled ()) ps))
   ∧ Products.rows
       (Products.settle (Products.deleteCall x) (JS.Fulfilled ())
          (Products.settle (Products.deleteCall x) (JS.Fulfilled ()) ps))
     = Products.rows
         (Products.settle (Products.deleteCall x) (JS.Fulfilled ()) ps))
  ∧
  (Categories.rows
     (Categories.settle (Categories.deleteCall x) (JS.Fulfilled ())
        (Categories.settle (Categories.deleteCall y) (JS.Fulfilled ()) cs))
   = Categories.rows
       (Categories.settle (Categories.deleteCall y) (JS.Fulfilled ())
          (Categories.settle (Categories.deleteCall x) (JS.Fulfilled ()) cs))
   ∧ Categories.rows
       (Categories.settle (Categories.deleteCall x) (JS.Fulfilled ())
          (Categories.settle (Categories.deleteCall x) (JS.Fulfilled ()) cs))
     = Categories.rows
         (Categories.settle (Categories.deleteCall x) (JS.Fulfilled ()) cs)).
Proof.
  settle_rows. split; (split; [apply remove_remove | apply remove_again]).
Qed.

(** ** The edit form, from opening to saving *)

Lemma or_empty (s : string) : (if JS.truthy s then s else "") = s.
Proof. by destruct s. Qed.

Lemma Products_openEffect_opened (before after : Products.State) :
  Products.open after = true → Products.openEffect before after = after.
Proof.
  intros Hopen. unfold Products.openEffect. rewrite Hopen.
  by rewrite andb_false_r.
Qed.

(** A record is opened with [onEdit] and [onSubmit] is handed the values of
    that record, unchanged: the [put] it starts carries the record itself
    (for a product the image staged by [onEdit] is the record's own), and when
    the call is fulfilled on a collection that holds the record and has unique
    ids, the collection is what it was. *)
Theorem saving_an_untouched_edit_changes_nothing
    (uuid : string)
    (prow : Products.ProductRow) (ps ps' : Products.State)
    (crow : Categories.CategoryRow) (cs cs' : Categories.State) :
  Spec.unique_ids Products.id (Products.rows ps') →
  Spec.unique_ids Categories.id (Categories.rows cs') →
  prow ∈ Products.rows ps' →
  crow ∈ Categories.rows cs' →
  (let ps1 := (Products.dispatch (Products.onEdit prow) ps).1 in
   Products.dispatch
     (Products.onSubmit uuid
        {| Products.v_code := Products.code prow;
           Products.v_name := Products.name prow;
           Products.v_category := Products.category prow;
           Products.v_price := Products.price prow;
           Products.v_status := Products.status prow |})
     ps1
   = (ps1, [Products.Axios (Products.putCall prow prow)])
   ∧ Products.rows (Products.settle (Products.putCall prow prow) (JS.Fulfilled ()) ps')
     = Products.rows ps')
  ∧
  (let cs1 := (Categories.dispatch (Categories.onEdit crow) cs).1 in
   Categories.dispatch
     (Categories.onSubmit uuid
        {| Categories.v_name := Categories.name crow;
           Categories.v_description := Categories.description crow;
           Categories.v_status := Categories.status crow |})
     cs1
   = (cs1, [Categories.putCall crow crow])
   ∧ Categories.rows
       (Categories.settle (Categories.putCall crow crow) (JS.Fulfilled ()) cs')
     = Categories.rows cs').
Proof.
  unfold Spec.unique_ids. intros Hpu Hcu Hpin Hcin.
  split; cbv zeta.
  - split; [|settle_rows; by apply replace_by_itself].
    assert ((Products.dispatch (Products.onEdit prow) ps).1
            = Products.setOpen true
                (Products.setImageUrl (Products.image prow)
                   (Products.setEditing (Some prow) ps))) as ->.
    { unfold Products.dispatch. cbn [Products.onEdit fst].
      rewrite or_empty. by apply Products_openEffect_opened. }
    unfold Products.dispatch, Products.onSubmit, Products.next, JS.Number.
    cbn [Products.editing Products.setOpen Products.setImageUrl
         Products.setEditing Products.imageUrl Products.v_code Products.v_name
         Products.v_category Products.v_price Products.v_status].
    rewrite Products_openEffect_same_open by done. by destruct prow.
  - split; [|settle_rows; by apply replace_by_itself].
    unfold Categories.dispatch, Categories.onSubmit, Categories.next.
    cbn [Categories.onEdit fst Categories.editing Categories.setOpen
         Categories.setEditing Categories.v_name Categories.v_description
         Categories.v_status].
    by destruct crow.
Qed.

(** The first sample product costs 12.5 and has no image. *)
Lemma saving_an_untouched_edit_witness :
  Spec.unique_ids Products.id (Products.rows Sample.productsState)
  ∧ Spec.unique_ids Categories.id (Categories.rows Sample.categoriesState)
  ∧ Sample.pen ∈ Products.rows Sample.productsState
  ∧ Sample.toys ∈ Categories.rows Sample.categoriesState
  ∧ Products.rows
      (Products.settle (Products.putCall Sample.pen Sample.pen)
         (JS.Fulfilled ()) Sample.productsState)
    = Sample.products
  ∧ Categories.rows
      (Categories.settle (Categories.putCall Sample.toys Sample.toys)
         (JS.Fulfilled ()) Sample.categoriesState)
    = Sample.categories.
Proof.
  assert (Spec.unique_ids Products.id (Products.rows Sample.productsState))
    as H5 by decide_by_evaluation.
  assert (Spec.unique_ids Categories.id (Categories.rows Sample.categoriesState))
    as H6 by decide_by_evaluation.
  assert (Sample.pen ∈ Products.rows Sample.productsState) as H7 by left.
  assert (Sample.toys ∈ Categories.rows Sample.categoriesState) as H8
    by (right; left).
  destruct (saving_an_untouched_edit_changes_nothing "9"
              Sample.pen Sample.productsState Sample.productsState
              Sample.toys Sample.categoriesState Sample.categoriesState
              H5 H6 H7 H8) as [[_ HP] [_ HC]].
  split; [exact H5|]. split; [exact H6|].
  split; [exact H7|]. split; [exact H8|]. split; [exact HP | exact HC].
Defined.

(** ** Properties of every sequence of events *)

Lemma Products_openEffect_page (before after : Products.State) :
  Products.page (Products.openEffect before after) = Products.page after.
Proof. unfold Products.openEffect. by destruct (_ && _). Qed.

Lemma Products_openEffect_open (before after : Products.State) :
  Products.open (Products.openEffect before after) = Products.open after.
Proof. unfold Products.openEffect. by destruct (_ && _). Qed.

(** The state a handler leaves, before the render that follows. *)
Lemma Products_Form_submit_state (uuid : string) (f : Products.FormStore)
    (st : Products.State) :
  (Products.Form_submit uuid f st).1 = st.
Proof.
  unfold Products.Form_submit, Products.onSubmit.
  destruct (Products.priceInput_checkValidity _); [|done].
  destruct (Products.validateFields f); [|done].
  by destruct (Products.editing st).
Qed.

Lemma Categories_Form_submit_state (uuid : string) (f : Categories.FormStore)
    (st : Categories.State) :
  (Categories.Form_submit uuid f st).1 = st.
Proof.
  unfold Categories.Form_submit, Categories.onSubmit.
  destruct (Categories.validateFields f); [|done].
  by destruct (Categories.editing st).
Qed.

Lemma Products_dispatch_state (h : Products.Handler) (st : Products.State) :
  (Products.dispatch h st).1 = Products.openEffect st (h st).1.
Proof. unfold Products.dispatch. by destruct (h st). Qed.

Lemma Products_step_page (ev : Products.Event) (st : Products.State) :
  (∀ p, ev ≠ Products.PageChanged p) →
  Products.page (Products.step ev st) = Products.page st.
Proof.
  intros Hev.
  destruct ev as [| | | | | | | |p|o|o|? o|? ? o|? o|? ? o];
    cbn [Products.step]; rewrite ?Products_dispatch_state;
    rewrite ?Products_Form_submit_state; try (by rewrite Products_openEffect_page).
  - by destruct (Hev p).
  - destruct o; [|done]. unfold Products.settle. by rewrite Products_openEffect_page.
  - destruct o; [|done]. unfold Products.settle. by rewrite Products_openEffect_page.
  - destruct o; [|done]. unfold Products.settle. by rewrite Products_openEffect_page.
  - destruct o; [|done]. unfold Products.settle. by rewrite Products_openEffect_page.
  - destruct o; [|done]. unfold Products.settle. by rewrite Products_openEffect_page.
  - unfold Products.settleUpload. destruct o; cbn; by rewrite Products_openEffect_page.
Qed.

Lemma Categories_step_page (ev : Categories.Event) (st : Categories.State) :
  (∀ p, ev ≠ Categories.PageChanged p) →
  Categories.page (Categories.step ev st) = Categories.page st.
Proof.
  intros Hev.
  destruct ev as [| | | | | | | |p|o|? o|? ? o|? o];
    cbn [Categories.step]; unfold Categories.dispatch;
    rewrite ?Categories_Form_submit_state; try done.
  - by destruct (Hev p).
  - by destruct o.
  - by destruct o.
  - by destruct o.
  - by destruct o.
Qed.

(** Nothing but the pagination changes the current page: along any sequence
    of events without a page change (searches, filter changes, creates,
    updates, deletes, fetches, uploads, cancels, fulfilled or rejected) the
    page stays what it was.  In particular it is never reset or clamped when
    the filtered list becomes shorter. *)
Theorem only_the_pagination_changes_the_page
    (pevs : list Products.Event) (ps : Products.State)
    (cevs : list Categories.Event) (cs : Categories.State) :
  Forall (λ ev, ∀ p, ev ≠ Products.PageChanged p) pevs →
  Forall (λ ev, ∀ p, ev ≠ Categories.PageChanged p) cevs →
  Products.page (Products.run pevs ps) = Products.page ps
  ∧ Categories.page (Categories.run cevs cs) = Categories.page cs.
Proof.
  intros Hp Hc. split.
  - revert ps. induction Hp as [|ev evs Hev _ IH]; intros ps; [done|].
    unfold Products.run in *. simpl. by rewrite IH, Products_step_page.
  - revert cs. induction Hc as [|ev evs Hev _ IH]; intros cs; [done|].
    unfold Categories.run in *. simpl. by rewrite IH, Categories_step_page.
Qed.

(** On page two, a search and the delete of both sample categories leave the
    page at two. *)
Lemma only_the_pagination_changes_the_page_witness :
  Forall (λ ev, ∀ p, ev ≠ Products.PageChanged p)
    [Products.SearchChanged "pen"; Products.DeleteSettled "1" (JS.Fulfilled ())]
  ∧ Forall (λ ev, ∀ p, ev ≠ Categories.PageChanged p)
      [Categories.DeleteSettled "c1" (JS.Fulfilled ());
       Categories.DeleteSettled "c2" (JS.Fulfilled ())]
  ∧ Categories.page
      (Categories.run
         [Categories.DeleteSettled "c1" (JS.Fulfilled ());
          Categories.DeleteSettled "c2" (JS.Fulfilled ())]
         (Categories.setPage 2 Sample.categoriesState))
    = 2
  ∧ Categories.rows
      (Categories.run
         [Categories.DeleteSettled "c1" (JS.Fulfilled ());
          Categories.DeleteSettled "c2" (JS.Fulfilled ())]
         (Categories.setPage 2 Sample.categoriesState))
    = [].
Proof.
  assert (Forall (λ ev, ∀ p, ev ≠ Products.PageChanged p)
            [Products.SearchChanged "pen";
             Products.DeleteSettled "1" (JS.Fulfilled ())]) as Hp
    by (repeat constructor; discriminate).
  assert (Forall (λ ev, ∀ p, ev ≠ Categories.PageChanged p)
            [Categories.DeleteSettled "c1" (JS.Fulfilled ());
             Categories.DeleteSettled "c2" (JS.Fulfilled ())]) as Hc
    by (repeat constructor; discriminate).
  split; [exact Hp|]. split; [exact Hc|]. split; [|reflexivity].
  exact (proj2 (only_the_pagination_changes_the_page _ Sample.productsState _
                  (Categories.setPage 2 Sample.categoriesState) Hp Hc)).
Defined.

Lemma Products_step_rows (ev : Products.Event) (st : Products.State) :
  Products.calls_setRows ev = false →
  Products.rows (Products.step ev st) = Products.rows st.
Proof.
  intros Hev.
  destruct ev as [| | | | | | | |p|o|o|? o|? ? o|? o|? ? o];
    cbn [Products.step]; rewrite ?Products_dispatch_state;
    rewrite ?Products_Form_submit_state; try (by rewrite Products_openEffect_rows).
  - by destruct o.
  - destruct o; [|done]. unfold Products.settle. by rewrite Products_openEffect_rows.
  - by destruct o.
  - by destruct o.
  - by destruct o.
  - unfold Products.settleUpload. destruct o; cbn; by rewrite Products_openEffect_rows.
Qed.

Lemma Categories_step_rows (ev : Categories.Event) (st : Categories.State) :
  Categories.calls_setRows ev = false →
  Categories.rows (Categories.step ev st) = Categories.rows st.
Proof.
  intros Hev.
  destruct ev as [| | | | | | | |p|o|? o|? ? o|? o];
    cbn [Categories.step]; unfold Categories.dispatch;
    rewrite ?Categories_Form_submit_state; try done; by destruct o.
Qed.

(** The collection changes only in the callback of a fulfilled list fetch,
    delete, update or create.  No click, keystroke, submit, cancel, upload or
    rejected call changes it: nothing is written before the server has
    answered, and nothing is rolled back when it refuses. *)
Theorem only_fulfilled_calls_change_the_collection
    (pevs : list Products.Event) (ps : Products.State)
    (cevs : list Categories.Event) (cs : Categories.State) :
  Forall (λ ev, Products.calls_setRows ev = false) pevs →
  Forall (λ ev, Categories.calls_setRows ev = false) cevs →
  Products.rows (Products.run pevs ps) = Products.rows ps
  ∧ Categories.rows (Categories.run cevs cs) = Categories.rows cs.
Proof.
  intros Hp Hc. split.
  - revert ps. induction Hp as [|ev evs Hev _ IH]; intros ps; [done|].
    unfold Products.run in *. simpl. by rewrite IH, Products_step_rows.
  - revert cs. induction Hc as [|ev evs Hev _ IH]; intros cs; [done|].
    unfold Categories.run in *. simpl. by rewrite IH, Categories_step_rows.
Qed.

(** Opening a record, saving the form and having the call rejected leaves
    the sample products as they were; so does a rejected delete for the
    categories. *)
Lemma only_fulfilled_calls_change_the_collection_witness :
  Forall (λ ev, Products.calls_setRows ev = false)
    [Products.EditClicked Sample.pen;
     Products.Submitted "3" (Products.initialValues Sample.productsEditing);
     Products.PutSettled Sample.pen Sample.book (JS.Rejected "Network Error")]
  ∧ Forall (λ ev, Categories.calls_setRows ev = false)
      [Categories.DeleteClicked "c1";
       Categories.DeleteSettled "c1" (JS.Rejected "Network Error")]
  ∧ Products.rows
      (Products.run
         [Products.EditClicked Sample.pen;
          Products.Submitted "3" (Products.initialValues Sample.productsEditing);
          Products.PutSettled Sample.pen Sample.book (JS.Rejected "Network Error")]
         Sample.productsState)
    = Sample.products
  ∧ Categories.rows
      (Categories.run
         [Categories.DeleteClicked "c1";
          Categories.DeleteSettled "c1" (JS.Rejected "Network Error")]
         Sample.categoriesState)
    = Sample.categories.
Proof.
  assert (Forall (λ ev, Products.calls_setRows ev = false)
            [Products.EditClicked Sample.pen;
             Products.Submitted "3" (Products.initialValues Sample.productsEditing);
             Products.PutSettled Sample.pen Sample.book
               (JS.Rejected "Network Error")]) as Hp
    by (repeat constructor).
  assert (Forall (λ ev, Categories.calls_setRows ev = false)
            [Categories.DeleteClicked "c1";
             Categories.DeleteSettled "c1" (JS.Rejected "Network Error")]) as Hc
    by (repeat constructor).
  split; [exact Hp|]. split; [exact Hc|].
  exact (only_fulfilled_calls_change_the_collection _ Sample.productsState _
           Sample.categoriesState Hp Hc).
Defined.

(** ** The staged image *)

Lemma Products_closing_clears_the_image (before after : Products.State) :
  (Products.open before = false → Products.imageUrl before = "") →
  Products.open after = false →
  Products.imageUrl after = Products.imageUrl before →
  Products.imageUrl (Products.openEffect before after) = "".
Proof.
  intros Hinv Hclosed Himage. unfold Products.openEffect. rewrite Hclosed.
  destruct (Products.open before) eqn:Hopen.
  - by rewrite bool_decide_eq_true_2.
  - rewrite bool_decide_eq_false_2 by (by intros Hne). simpl.
    rewrite Himage. by apply Hinv.
Qed.

Lemma Products_step_closed_image (ev : Products.Event) (st : Products.State) :
  (∀ env file res, ev ≠ Products.UploadSettled env file (JS.Fulfilled res)) →
  (Products.open st = false → Products.imageUrl st = "") →
  Products.open (Products.step ev st) = false →
  Products.imageUrl (Products.step ev st) = "".
Proof.
  intros Hev Hinv.
  destruct ev as [|row|? |? ?| | |?|?|?|o|o|? o|? ? o|? o|env file o];
    cbn [Products.step]; rewrite ?Products_dispatch_state;
    rewrite ?Products_Form_submit_state;
    try (destruct o as [res|err]; [|done]; unfold Products.settle);
    rewrite ?Products_openEffect_open; intros Hclosed;
    try (by apply Products_closing_clears_the_image).
  unfold Products.settleUpload in *. destruct o as [res|err]; cbn in *.
  - by destruct (Hev env file res).
  - rewrite Products_openEffect_open in Hclosed.
    by apply Products_closing_clears_the_image.
Qed.

(** While the form is closed no image is staged: this holds at the start and
    after every sequence of events in which no upload is fulfilled, because
    every way of closing the form runs the effect that clears the staged
    image. *)
Theorem a_closed_form_stages_no_image
    (evs : list Products.Event) (st : Products.State) :
  Forall (λ ev, ∀ env file res,
            ev ≠ Products.UploadSettled env file (JS.Fulfilled res)) evs →
  (Products.open st = false → Products.imageUrl st = "") →
  Products.open (Products.run evs st) = false →
  Products.imageUrl (Products.run evs st) = "".
Proof.
  intros Hevs. revert st. induction Hevs as [|ev evs Hev _ IH]; intros st Hinv.
  - exact Hinv.
  - unfold Products.run in *. simpl. apply IH.
    by apply Products_step_closed_image.
Qed.

(** From the start: open a record that has an image, then cancel. *)
Lemma a_closed_form_stages_no_image_witness :
  Forall (λ ev, ∀ env file res,
            ev ≠ Products.UploadSettled env file (JS.Fulfilled res))
    [Products.ProductsFetched (JS.Fulfilled Sample.products);
     Products.EditClicked Sample.book; Products.CancelClicked]
  ∧ (Products.open Products.init = false → Products.imageUrl Products.init = "")
  ∧ Products.open
      (Products.run
         [Products.ProductsFetched (JS.Fulfilled Sample.products);
          Products.EditClicked Sample.book; Products.CancelClicked]
         Products.init) = false
  ∧ Products.imageUrl
      (Products.run
         [Products.ProductsFetched (JS.Fulfilled Sample.products);
          Products.EditClicked Sample.book]
         Products.init) = "http://img/book.png"
  ∧ Products.imageUrl
      (Products.run
         [Products.ProductsFetched (JS.Fulfilled Sample.products);
          Products.EditClicked Sample.book; Products.CancelClicked]
         Products.init) = "".
Proof.
  assert (Forall (λ ev, ∀ env file res,
                    ev ≠ Products.UploadSettled env file (JS.Fulfilled res))
            [Products.ProductsFetched (JS.Fulfilled Sample.products);
             Products.EditClicked Sample.book; Products.CancelClicked]) as Hevs
    by (repeat constructor; discriminate).
  assert (Products.open Products.init = false →
          Products.imageUrl Products.init = "") as Hinit
    by (intros _; reflexivity).
  assert (Products.open
            (Products.run
               [Products.ProductsFetched (JS.Fulfilled Sample.products);
                Products.EditClicked Sample.book; Products.CancelClicked]
               Products.init) = false) as Hclosed by reflexivity.
  split; [exact Hevs|]. split; [exact Hinit|]. split; [exact Hclosed|].
  split; [reflexivity|].
  exact (a_closed_form_stages_no_image _ Products.init Hevs Hinit Hclosed).
Defined.

(** An upload that is fulfilled stages its URL whether the form is open or
    not, and opening the create form does not clear it: when [onSubmit] then
    runs for the create, the record it posts carries that URL as its image.
    So an upload still in flight when the form is closed ends up in the next
    product. *)
Theorem a_late_upload_lands_in_the_next_create
    (env : Products.ImportMetaEnv) (file : Products.File)
    (res : Products.UploadData) (uuid : string)
    (values : Products.Values) (st : Products.State) :
  Products.dispatch (Products.onSubmit uuid values)
    (Products.run
       [Products.UploadSettled env file (JS.Fulfilled res); Products.AddClicked]
       st)
  = (Products.run
       [Products.UploadSettled env file (JS.Fulfilled res); Products.AddClicked]
       st,
     [Products.Axios
        (Products.postCall
           {| Products.id := uuid;
              Products.code := Products.v_code values;
              Products.name := Products.v_name values;
              Products.category := Products.v_category values;
              Products.price := Products.v_price values;
              Products.image := Products.secure_url res;
              Products.status := Products.v_status values |})]).
Proof.
  assert (Products.run
            [Products.UploadSettled env file (JS.Fulfilled res);
             Products.AddClicked] st
          = Products.setOpen true
              (Products.setEditing None
                 (Products.setImageUrl (Products.secure_url res) st))) as ->.
  { unfold Products.run. cbn [foldl Products.step].
    rewrite (Products_dispatch_state Products.onAdd).
    rewrite Products_openEffect_opened by done.
    unfold Products.settleUpload. cbn.
    by rewrite Products_openEffect_same_open. }
  unfold Products.dispatch, Products.onSubmit. cbn.
  by rewrite Products_openEffect_same_open.
Qed.

(** ** The first fetches *)

(** The two fetches of the products screen do not depend on each other:
    whatever their outcomes, settling them in either order gives the same
    state.  A list fetch that is fulfilled after other events discards what
    those events did to the collection. *)
Theorem the_fetches_are_independent_and_overwrite
    (o1 : JS.Outcome (list Products.ProductRow))
    (o2 : JS.Outcome (list Products.Category.t))
    (pevs : list Products.Event) (ps : Products.State)
    (pdata : list Products.ProductRow)
    (cevs : list Categories.Event) (cs : Categories.State)
    (cdata : list Categories.CategoryRow) :
  Products.step (Products.ProductsFetched o1)
    (Products.step (Products.CategoriesFetched o2) ps)
  = Products.step (Products.CategoriesFetched o2)
      (Products.step (Products.ProductsFetched o1) ps)
  ∧ Products.rows
      (Products.run (pevs ++ [Products.ProductsFetched (JS.Fulfilled pdata)]) ps)
    = pdata
  ∧ Categories.rows
      (Categories.run
         (cevs ++ [Categories.CategoriesFetched (JS.Fulfilled cdata)]) cs)
    = cdata.
Proof.
  split; [|split].
  - cbn [Products.step]. unfold Products.settle.
    destruct o1 as [data|err1], o2 as [cats|err2];
      rewrite ?Products_openEffect_same_open by done; try done.
  - unfold Products.run. rewrite foldl_app. cbn [foldl Products.step].
    by rewrite Products_settle_rows.
  - unfold Categories.run. by rewrite foldl_app.
Qed.

(** ** The category column *)

Lemma find_id_absent (cats : list Products.Category.t) (x : string) :
  x ∉ Products.Category.id <$> cats →
  List.find (λ c, bool_decide (Products.Category.id c = x)) cats = None.
Proof.
  induction cats as [|c cats IH]; [done|].
  rewrite fmap_cons, not_elem_of_cons. intros [Hne Hnot]. simpl.
  rewrite bool_decide_eq_false_2 by done. by apply IH.
Qed.

Lemma find_id_first (l1 l2 : list Products.Category.t)
    (c : Products.Category.t) (x : string) :
  x ∉ Products.Category.id <$> l1 → Products.Category.id c = x →
  List.find (λ c, bool_decide (Products.Category.id c = x)) (l1 ++ c :: l2)
  = Some c.
Proof.
  intros Hnot Hid. induction l1 as [|c1 l1 IH]; simpl.
  - by rewrite bool_decide_eq_true_2.
  - rewrite fmap_cons, not_elem_of_cons in Hnot. destruct Hnot as [Hne Hnot].
    rewrite bool_decide_eq_false_2 by done. by apply IH.
Qed.

(** The category cell of a product shows the name of the first category
    whose id is the product's category, and a dash when that name is empty;
    among the categories before it, none of which has the id, the cell is a
    dash.  The cell is never empty. *)
Theorem the_category_cell_shows_the_first_match_or_a_dash
    (l1 l2 : list Products.Category.t) (c : Products.Category.t) (x : string) :
  x ∉ Products.Category.id <$> l1 →
  Products.Category.id c = x →
  Products.categoryColumn_render (l1 ++ c :: l2) x
  = (if bool_decide (Products.Category.name c = "")
     then "-" else Products.Category.name c)
  ∧ Products.categoryColumn_render l1 x = "-"
  ∧ Products.categoryColumn_render (l1 ++ c :: l2) x ≠ "".
Proof.
  intros Hnot Hid. unfold Products.categoryColumn_render.
  rewrite find_id_first, find_id_absent by done.
  by destruct (Products.Category.name c).
Qed.

(** Two categories share the id ["c1"]: the cell shows the first; the id
    ["c9"] of no category shows a dash. *)
Lemma the_category_cell_witness :
  ("c1" ∉ Products.Category.id
          <$> [ {| Products.Category.id := "c0"; Products.Category.name := "Old" |} ])
  ∧ Products.Category.id
      {| Products.Category.id := "c1"; Products.Category.name := "Stationery" |}
    = "c1"
  ∧ Products.categoryColumn_render
      [ {| Products.Category.id := "c0"; Products.Category.name := "Old" |};
        {| Products.Category.id := "c1"; Products.Category.name := "Stationery" |};
        {| Products.Category.id := "c1"; Products.Category.name := "Paper" |} ]
      "c1"
    = "Stationery"
  ∧ Products.categoryColumn_render
      [ {| Products.Category.id := "c0"; Products.Category.name := "Old" |} ]
      "c1"
    = "-".
Proof.
  assert ("c1" ∉ Products.Category.id
                 <$> [ {| Products.Category.id := "c0";
                          Products.Category.name := "Old" |} ]) as Hnot
    by decide_by_evaluation.
  assert (Products.Category.id
            {| Products.Category.id := "c1";
               Products.Category.name := "Stationery" |} = "c1") as Hid
    by reflexivity.
  destruct (the_category_cell_shows_the_first_match_or_a_dash
              [ {| Products.Category.id := "c0"; Products.Category.name := "Old" |} ]
              [ {| Products.Category.id := "c1"; Products.Category.name := "Paper" |} ]
              {| Products.Category.id := "c1";
                 Products.Category.name := "Stationery" |}
              "c1" Hnot Hid) as (Hshown & Hdash & _).
  split; [exact Hnot|]. split; [exact Hid|]. split; [exact Hshown | exact Hdash].
Defined.

(** ** More on searching *)

Section searching.
Import JS.

Lemma string_app_cons (a : ascii) (s t : string) :
  String a s +:+ t = String a (s +:+ t).
Proof. reflexivity. Qed.

Lemma string_app_assoc (s t u : string) : (s +:+ t) +:+ u = s +:+ t +:+ u.
Proof.
  induction s as [|a s IH]; [done|]. rewrite !string_app_cons. by f_equal.
Qed.

Lemma string_app_empty_r (s : string) : s +:+ "" = s.
Proof.
  induction s as [|a s IH]; [done|]. rewrite string_app_cons. by f_equal.
Qed.

Lemma lowerAscii_app (s t : string) :
  lowerAscii (s +:+ t) = lowerAscii s +:+ lowerAscii t.
Proof.
  induction s as [|a s IH]; [done|]. rewrite string_app_cons. simpl.
  rewrite string_app_cons. by f_equal.
Qed.

Lemma ascii_only_app (s t : string) :
  ascii_only (s +:+ t) = ascii_only s && ascii_only t.
Proof.
  induction s as [|a s IH]; [done|]. rewrite string_app_cons. simpl.
  by rewrite IH, andb_assoc.
Qed.

Lemma contains_trans (a b c : string) :
  Spec.contains a b → Spec.contains b c → Spec.contains a c.
Proof.
  intros (u & v & ->) (u' & v' & ->). exists (u +:+ u'), (v' +:+ v).
  by rewrite !string_app_assoc.
Qed.

Lemma contains_app_l (s t : string) : Spec.contains (s +:+ t) s.
Proof. by exists "", t. Qed.

Lemma contains_app_r (s t : string) : Spec.contains (s +:+ t) t.
Proof. exists s, "". by rewrite string_app_empty_r. Qed.

Lemma contains_in_empty (s : string) : Spec.contains "" s → s = "".
Proof. intros (u & v & Huv). destruct u, s; done. Qed.

Lemma contains_lowerAscii (s t : string) :
  Spec.contains s t → Spec.contains (lowerAscii s) (lowerAscii t).
Proof.
  intros (u & v & ->). rewrite !lowerAscii_app.
  by exists (lowerAscii u), (lowerAscii v).
Qed.

Lemma ascii_only_contains (s t : string) :
  Spec.contains s t → ascii_only s = true → ascii_only t = true.
Proof.
  intros (u & v & ->). rewrite !ascii_only_app, !andb_true_iff. tauto.
Qed.

(** The lower-casing of the examples does to ASCII text what the host's does. *)
Lemma lower_basic_ascii (after_letter : bool) (s : string) :
  ascii_only s = true → lower_basic after_letter s = lowerAscii s.
Proof.
  revert after_letter. induction s as [|c s IH]; intros after_letter; [done|].
  simpl. rewrite andb_true_iff. intros [Hc Hs]. rewrite Hc. by rewrite IH.
Qed.

Lemma toLowerCase_basic_agrees_on_ascii : agrees_on_ascii toLowerCase_basic.
Proof. intros s Hs. by apply lower_basic_ascii. Qed.

(** On ASCII text, a search text that another search text contains is found
    wherever the other is. *)
Lemma lowered_contains_narrow (toLowerCase : string → string)
    (text s s' : string) :
  agrees_on_ascii toLowerCase →
  ascii_only text = true → ascii_only s' = true →
  Spec.contains s' s →
  Spec.lowered_contains toLowerCase text s' →
  Spec.lowered_contains toLowerCase text s.
Proof.
  intros Hagrees Htext Hs' Hpart [->|Hfound].
  - left. by apply contains_in_empty.
  - right. revert Hfound.
    rewrite !Hagrees by eauto using ascii_only_contains. intros Hfound.
    eapply contains_trans; [exact Hfound | by apply contains_lowerAscii].
Qed.

(** On ASCII text, a part of the text is found in any letter case. *)
Lemma lowered_contains_part (toLowerCase : string → string)
    (text s t : string) :
  agrees_on_ascii toLowerCase →
  ascii_only text = true → ascii_only s = true →
  Spec.contains text t → lowerAscii s = lowerAscii t →
  Spec.lowered_contains toLowerCase text s.
Proof.
  intros Hagrees Htext Hs Hpart Hcase. right.
  rewrite !Hagrees, Hcase by done. by apply contains_lowerAscii.
Qed.

End searching.

(** Filtering by a test that, on the list, implies another test. *)
Lemma filter_narrow {A : Type} (P Q : A → Prop)
    `{!∀ x, Decision (P x)} `{!∀ x, Decision (Q x)} (l : list A) :
  (∀ x, x ∈ l → Q x → P x) → filter Q l `sublist_of` filter P l.
Proof.
  induction l as [|a l IH]; intros HQP; [done|].
  assert (filter Q l `sublist_of` filter P l) as Hrest
    by (apply IH; intros x Hx; apply HQP; by right).
  rewrite !filter_cons. destruct (decide (Q a)) as [HQ|HQ].
  - rewrite decide_True by (apply HQP; [by left | done]).
    by apply sublist_skip.
  - destruct (decide (P a)); [by apply sublist_cons | done].
Qed.

(** The search text is looked at through [toLowerCase] only: two search
    texts, both empty or both not, that the host lower-cases to the same text
    give the same filtered list. *)
Theorem the_search_ignores_the_case_of_the_search_text
    (toLowerCase : string → string)
    (C : list Products.ProductRow) (K : list Categories.CategoryRow)
    (s s' : string) (f : option Products.ProductStatus)
    (g : option Categories.CategoryStatus) :
  toLowerCase s = toLowerCase s' →
  (s = "" ↔ s' = "") →
  Products.filtered toLowerCase C s f = Products.filtered toLowerCase C s' f
  ∧ Categories.filtered toLowerCase K s g = Categories.filtered toLowerCase K s' g.
Proof.
  intros Hcase Hempty.
  assert (JS.truthy s = JS.truthy s') as Htruthy.
  { destruct s, s'; try done.
    - by destruct (proj1 Hempty eq_refl).
    - by destruct (proj2 Hempty eq_refl). }
  unfold Products.filtered, Categories.filtered.
  split; f_equal; apply list_filter_iff; intros r; by rewrite Hcase, Htruthy.
Qed.

Lemma the_search_ignores_the_case_witness :
  JS.toLowerCase_basic "pEn" = JS.toLowerCase_basic "PEN"
  ∧ ("pEn" = "" ↔ "PEN" = "")
  ∧ Products.filtered JS.toLowerCase_basic Sample.products "pEn" None
    = [Sample.pen]
  ∧ Products.filtered JS.toLowerCase_basic Sample.products "PEN" None
    = [Sample.pen]
  ∧ Categories.filtered JS.toLowerCase_basic Sample.categories "pEn" None
    = Categories.filtered JS.toLowerCase_basic Sample.categories "PEN" None.
Proof.
  assert (JS.toLowerCase_basic "pEn" = JS.toLowerCase_basic "PEN") as Hcase
    by reflexivity.
  assert ("pEn" = "" ↔ "PEN" = "") as Hempty by (split; discriminate).
  destruct (the_search_ignores_the_case_of_the_search_text
              JS.toLowerCase_basic Sample.products Sample.categories
              "pEn" "PEN" None None Hcase Hempty)
    as [HP HC].
  split; [exact Hcase|]. split; [exact Hempty|]. split; [reflexivity|].
  split; [rewrite <- HP; reflexivity | exact HC].
Defined.

(** On ASCII text a longer search text never adds rows: when the host
    lower-cases ASCII text letter by letter, the searchable texts of the
    collection and the new search text are ASCII, and the old search text
    occurs in the new one, the new filtered list is a subsequence of the old
    one.  Choosing a status never adds rows either. *)
Theorem refining_the_search_narrows_the_list
    (toLowerCase : string → string)
    (C : list Products.ProductRow) (K : list Categories.CategoryRow)
    (s s' : string) (f : option Products.ProductStatus)
    (g : option Categories.CategoryStatus) :
  JS.agrees_on_ascii toLowerCase →
  (∀ r, r ∈ C → JS.ascii_only (Spec.product_text r) = true) →
  (∀ r, r ∈ K → JS.ascii_only (Spec.category_text r) = true) →
  JS.ascii_only s' = true →
  Spec.contains s' s →
  (Products.filtered toLowerCase C s' f
     `sublist_of` Products.filtered toLowerCase C s f
   ∧ Products.filtered toLowerCase C s f
       `sublist_of` Products.filtered toLowerCase C s None)
  ∧ (Categories.filtered toLowerCase K s' g
       `sublist_of` Categories.filtered toLowerCase K s g
     ∧ Categories.filtered toLowerCase K s g
         `sublist_of` Categories.filtered toLowerCase K s None).
Proof.
  intros Hagrees HC HK Hs' Hpart. unfold Products.filtered, Categories.filtered.
  rewrite !list_filter_filter.
  split; split; apply filter_narrow; intros r Hr [Hstatus Hsearch];
    (split; [done|]);
    first [ done
          | rewrite search_test_spec in *;
            apply lowered_contains_narrow with s';
            first [ done | exact (HC r Hr) | exact (HK r Hr) ] ].
Qed.

(** Typing ["pe"] and then ["pen"]. *)
Lemma refining_the_search_narrows_the_list_witness :
  JS.agrees_on_ascii JS.toLowerCase_basic
  ∧ (∀ r, r ∈ Sample.products → JS.ascii_only (Spec.product_text r) = true)
  ∧ (∀ r, r ∈ Sample.categories → JS.ascii_only (Spec.category_text r) = true)
  ∧ JS.ascii_only "pen" = true
  ∧ Spec.contains "pen" "pe"
  ∧ Products.filtered JS.toLowerCase_basic Sample.products "pen" None
    `sublist_of` Products.filtered JS.toLowerCase_basic Sample.products "pe" None
  ∧ Categories.filtered JS.toLowerCase_basic Sample.categories "pen"
      (Some Categories.active)
    `sublist_of` Categories.filtered JS.toLowerCase_basic Sample.categories
                   "pen" None.
Proof.
  assert (∀ r, r ∈ Sample.products → JS.ascii_only (Spec.product_text r) = true)
    as HC.
  { intros r Hr. apply elem_of_cons in Hr as [->|Hr]; [reflexivity|].
    apply elem_of_cons in Hr as [->|Hr]; [reflexivity|].
    by apply elem_of_nil in Hr. }
  assert (∀ r, r ∈ Sample.categories →
             JS.ascii_only (Spec.category_text r) = true) as HK.
  { intros r Hr. apply elem_of_cons in Hr as [->|Hr]; [reflexivity|].
    apply elem_of_cons in Hr as [->|Hr]; [reflexivity|].
    by apply elem_of_nil in Hr. }
  assert (JS.ascii_only "pen" = true) as Hs' by reflexivity.
  assert (Spec.contains "pen" "pe") as Hpart by (by exists "", "n").
  destruct (refining_the_search_narrows_the_list JS.toLowerCase_basic
              Sample.products Sample.categories "pe" "pen" None
              (Some Categories.active) toLowerCase_basic_agrees_on_ascii
              HC HK Hs' Hpart) as [[HP _] [_ HCat]].
  split; [exact toLowerCase_basic_agrees_on_ascii|].
  split; [exact HC|]. split; [exact HK|]. split; [exact Hs'|].
  split; [exact Hpart|]. split; [exact HP | exact HCat].
Defined.

(** On ASCII text a record of the collection is found by any part of its
    name (for a product also of its code), typed in any letter case, with no
    status chosen or with its own status chosen: the host lower-cases ASCII
    text letter by letter, the searchable text of the record and the search
    text are ASCII, and the search text is the part up to the case of its
    letters. *)
Theorem a_record_is_found_by_its_own_text
    (toLowerCase : string → string)
    (C : list Products.ProductRow) (pr : Products.ProductRow)
    (K : list Categories.CategoryRow) (cr : Categories.CategoryRow)
    (s t u : string) :
  JS.agrees_on_ascii toLowerCase →
  pr ∈ C →
  cr ∈ K →
  JS.ascii_only (Spec.product_text pr) = true →
  JS.ascii_only (Spec.category_text cr) = true →
  JS.ascii_only s = true →
  Spec.contains (Products.name pr) t ∨ Spec.contains (Products.code pr) t →
  Spec.contains (Categories.name cr) u →
  JS.lowerAscii s = JS.lowerAscii t →
  JS.lowerAscii s = JS.lowerAscii u →
  (pr ∈ Products.filtered toLowerCase C s None
   ∧ pr ∈ Products.filtered toLowerCase C s (Some (Products.status pr)))
  ∧ (cr ∈ Categories.filtered toLowerCase K s None
     ∧ cr ∈ Categories.filtered toLowerCase K s (Some (Categories.status cr))).
Proof.
  intros Hagrees Hpr Hcr Hptext Hctext Hs Hpt Hcu Hst Hsu.
  assert (Spec.lowered_contains toLowerCase (Spec.product_text pr) s) as Hp.
  { apply lowered_contains_part with t; try done.
    unfold Spec.product_text. destruct Hpt as [Hname|Hcode].
    - eapply contains_trans; [apply contains_app_l | exact Hname].
    - eapply contains_trans; [apply contains_app_r | exact Hcode]. }
  assert (Spec.lowered_contains toLowerCase (Spec.category_text cr) s) as Hc
    by (by apply lowered_contains_part with u).
  split; split.
  - apply (selection_elem_of _ _ _ _
             (chained_filters_select toLowerCase Spec.product_text
                Products.status s None C)).
    split; [done|]. by split.
  - apply (selection_elem_of _ _ _ _
             (chained_filters_select toLowerCase Spec.product_text
                Products.status s (Some (Products.status pr)) C)).
    split; [done|]. split; [done|]. by intros f0 [= <-].
  - apply (selection_elem_of _ _ _ _
             (chained_filters_select toLowerCase Spec.category_text
                Categories.status s None K)).
    split; [done|]. by split.
  - apply (selection_elem_of _ _ _ _
             (chained_filters_select toLowerCase Spec.category_text
                Categories.status s (Some (Categories.status cr)) K)).
    split; [done|]. split; [done|]. by intros f0 [= <-].
Qed.

(** The letter ["O"] finds the book and the toys, whose names have it in
    lower case. *)
Lemma a_record_is_found_by_its_own_text_witness :
  JS.agrees_on_ascii JS.toLowerCase_basic
  ∧ Sample.book ∈ Sample.products
  ∧ Sample.toys ∈ Sample.categories
  ∧ JS.ascii_only (Spec.product_text Sample.book) = true
  ∧ JS.ascii_only (Spec.category_text Sample.toys) = true
  ∧ JS.ascii_only "O" = true
  ∧ (Spec.contains (Products.name Sample.book) "o"
     ∨ Spec.contains (Products.code Sample.book) "o")
  ∧ Spec.contains (Categories.name Sample.toys) "o"
  ∧ JS.lowerAscii "O" = JS.lowerAscii "o"
  ∧ Sample.book ∈ Products.filtered JS.toLowerCase_basic Sample.products "O" None
  ∧ Sample.toys
    ∈ Categories.filtered JS.toLowerCase_basic Sample.categories "O"
        (Some Categories.inactive).
Proof.
  assert (Sample.book ∈ Sample.products) as H1 by (right; left).
  assert (Sample.toys ∈ Sample.categories) as H2 by (right; left).
  assert (JS.ascii_only (Spec.product_text Sample.book) = true) as H1'
    by reflexivity.
  assert (JS.ascii_only (Spec.category_text Sample.toys) = true) as H2'
    by reflexivity.
  assert (JS.ascii_only "O" = true) as H0 by reflexivity.
  assert (Spec.contains (Products.name Sample.book) "o"
          ∨ Spec.contains (Products.code Sample.book) "o") as H3
    by (left; by exists "B", "ok").
  assert (Spec.contains (Categories.name Sample.toys) "o") as H4
    by (by exists "T", "ys").
  assert (JS.lowerAscii "O" = JS.lowerAscii "o") as H5 by reflexivity.
  destruct (a_record_is_found_by_its_own_text JS.toLowerCase_basic
              Sample.products Sample.book Sample.categories Sample.toys
              "O" "o" "o" toLowerCase_basic_agrees_on_ascii
              H1 H2 H1' H2' H0 H3 H4 H5 H5) as [[HP _] [_ HC]].
  split; [exact toLowerCase_basic_agrees_on_ascii|].
  split; [exact H1|]. split; [exact H2|]. split; [exact H1'|].
  split; [exact H2'|]. split; [exact H0|]. split; [exact H3|].
  split; [exact H4|]. split; [exact H5|]. split; [exact HP | exact HC].
Defined.

(** ** The view after a change of the collection *)

Lemma selection_singleton {R : Type} (P : R → Prop) (r : R) (l' : list R) :
  Spec.selection P [r] l' → (P r → l' = [r]) ∧ (¬ P r → l' = []).
Proof.
  intros Hsel. inversion Hsel as [|? ? ? HP Hrest|? ? ? HP Hrest]; subst;
    inversion Hrest; subst; by split.
Qed.

(** A created record is shown last in the filtered list when it passes the
    current search and status, and not at all otherwise; the rest of the
    filtered list stays.  A delete takes the record out of the filtered list
    and leaves the others in their order.  The search is the one of the
    component: the texts are compared after the host's [toLowerCase],
    whatever that function does. *)
Theorem the_view_follows_creates_and_deletes
    (toLowerCase : string → string) (s x : string)
    (pn : Products.ProductRow) (ps : Products.State)
    (f : option Products.ProductStatus)
    (cn : Categories.CategoryRow) (cs : Categories.State)
    (g : option Categories.CategoryStatus) :
  (Products.filtered toLowerCase
     (Products.rows (Products.settle (Products.postCall pn) (JS.Fulfilled ()) ps))
     s f
   = Products.filtered toLowerCase (Products.rows ps) s f
     ++ Products.filtered toLowerCase [pn] s f
   ∧ (Spec.passes toLowerCase Spec.product_text Products.status s f pn →
      Products.filtered toLowerCase [pn] s f = [pn])
   ∧ (¬ Spec.passes toLowerCase Spec.product_text Products.status s f pn →
      Products.filtered toLowerCase [pn] s f = [])
   ∧ Products.filtered toLowerCase
       (Products.rows
          (Products.settle (Products.deleteCall x) (JS.Fulfilled ()) ps))
       s f
     = filter (λ r, Products.id r ≠ x)
         (Products.filtered toLowerCase (Products.rows ps) s f))
  ∧
  (Categories.filtered toLowerCase
     (Categories.rows
        (Categories.settle (Categories.postCall cn) (JS.Fulfilled ()) cs))
     s g
   = Categories.filtered toLowerCase (Categories.rows cs) s g
     ++ Categories.filtered toLowerCase [cn] s g
   ∧ (Spec.passes toLowerCase Spec.category_text Categories.status s g cn →
      Categories.filtered toLowerCase [cn] s g = [cn])
   ∧ (¬ Spec.passes toLowerCase Spec.category_text Categories.status s g cn →
      Categories.filtered toLowerCase [cn] s g = [])
   ∧ Categories.filtered toLowerCase
       (Categories.rows
          (Categories.settle (Categories.deleteCall x) (JS.Fulfilled ()) cs))
       s g
     = filter (λ r, Categories.id r ≠ x)
         (Categories.filtered toLowerCase (Categories.rows cs) s g)).
Proof.
  settle_rows. split.
  - split; [unfold Products.filtered; by rewrite !filter_app|].
    pose proof (selection_singleton _ _ _
                  (chained_filters_select toLowerCase Spec.product_text
                     Products.status s f [pn])) as [Hin Hout].
    split; [exact Hin|]. split; [exact Hout|].
    unfold Products.filtered. rewrite !list_filter_filter.
    apply list_filter_iff. tauto.
  - split; [unfold Categories.filtered; by rewrite !filter_app|].
    pose proof (selection_singleton _ _ _
                  (chained_filters_select toLowerCase Spec.category_text
                     Categories.status s g [cn])) as [Hin Hout].
    split; [exact Hin|]. split; [exact Hout|].
    unfold Categories.filtered. rewrite !list_filter_filter.
    apply list_filter_iff. tauto.
Qed.

(** ** The table at every page number *)

Lemma slice_sublist {A : Type} (l : list A) (a b : Z) : JS.slice l a b `sublist_of` l.
Proof.
  unfold JS.slice. etrans; [apply sublist_take | apply sublist_drop].
Qed.

Lemma slice_length_five {A : Type} (l : list A) (p : Z) :
  (length (JS.slice l ((p - 1) * 5) ((p - 1) * 5 + 5)) ≤ 5)%nat.
Proof.
  unfold JS.slice. rewrite length_take.
  destruct (Z.ltb_spec ((p - 1) * 5) 0), (Z.ltb_spec ((p - 1) * 5 + 5) 0); lia.
Qed.

Lemma slice_page_zero {A : Type} (l : list A) :
  JS.slice l ((0 - 1) * 5) ((0 - 1) * 5 + 5) = [].
Proof.
  unfold JS.slice. simpl. rewrite Z.min_l by lia.
  replace (Z.to_nat (0 - _)) with 0%nat by lia. done.
Qed.

(** Whatever the state (any page number, zero and negative ones included,
    any search, any filter), the table gets at most five records, all of them
    records of the collection in the order of the collection; with unique ids
    in the collection the table has unique row keys.  Page zero shows nothing.
    The total handed to the pagination never exceeds the collection. *)
Theorem the_table_shows_at_most_one_page_of_the_collection
    (toLowerCase : string → string)
    (ps : Products.State) (cs : Categories.State) :
  ((length (Products.dataSource toLowerCase ps) ≤ 5)%nat
   ∧ Products.dataSource toLowerCase ps `sublist_of` Products.rows ps
   ∧ (Spec.unique_ids Products.id (Products.rows ps) →
      Spec.unique_ids Products.id (Products.dataSource toLowerCase ps))
   ∧ (Products.page ps = 0 → Products.dataSource toLowerCase ps = [])
   ∧ (Products.total toLowerCase ps ≤ length (Products.rows ps))%nat)
  ∧
  ((length (Categories.dataSource toLowerCase cs) ≤ 5)%nat
   ∧ Categories.dataSource toLowerCase cs `sublist_of` Categories.rows cs
   ∧ (Spec.unique_ids Categories.id (Categories.rows cs) →
      Spec.unique_ids Categories.id (Categories.dataSource toLowerCase cs))
   ∧ (Categories.page cs = 0 → Categories.dataSource toLowerCase cs = [])
   ∧ (Categories.total toLowerCase cs ≤ length (Categories.rows cs))%nat).
Proof.
  assert (Products.dataSource toLowerCase ps `sublist_of` Products.rows ps) as Hp.
  { unfold Products.dataSource, Products.paged, Products.filtered.
    etrans; [apply slice_sublist|].
    etrans; apply sublist_filter. }
  assert (Categories.dataSource toLowerCase cs `sublist_of` Categories.rows cs) as Hc.
  { unfold Categories.dataSource, Categories.paged, Categories.filtered.
    etrans; [apply slice_sublist|].
    etrans; apply sublist_filter. }
  unfold Spec.unique_ids. split.
  - split; [apply slice_length_five|]. split; [exact Hp|].
    split; [intros Hu; eapply sublist_NoDup; [exact Hu | by apply fmap_sublist]|].
    split.
    + intros Hzero. unfold Products.dataSource, Products.paged. rewrite Hzero.
      apply slice_page_zero.
    + unfold Products.total, Products.filtered.
      etrans; [apply length_filter | apply length_filter].
  - split; [apply slice_length_five|]. split; [exact Hc|].
    split; [intros Hu; eapply sublist_NoDup; [exact Hu | by apply fmap_sublist]|].
    split.
    + intros Hzero. unfold Categories.dataSource, Categories.paged. rewrite Hzero.
      apply slice_page_zero.
    + unfold Categories.total, Categories.filtered.
      etrans; [apply length_filter | apply length_filter].
Qed.

Lemma pageCount_five (len : nat) (p : Z) :
  1 ≤ p → p ≤ Z.of_nat (Spec.pageCount len 5) ↔ (p - 1) * 5 < Z.of_nat len.
Proof.
  intros Hp. unfold Spec.pageCount.
  pose proof (Nat.div_mod_eq (len + 5 - 1) 5) as Hdiv.
  pose proof (Nat.mod_upper_bound (len + 5 - 1) 5) as Hmod.
  lia.
Qed.

Lemma page_length_five {A : Type} (l : list A) (p : Z) :
  1 ≤ p →
  length (JS.slice l ((p - 1) * 5) ((p - 1) * 5 + 5))
  = Z.to_nat (Z.min 5 (Z.of_nat (length l) - (p - 1) * 5)).
Proof.
  intros Hp. rewrite slice_page by lia. rewrite length_take, length_drop. lia.
Qed.

(** For a page number that is at least one, the table shows five records, or
    what is left of the filtered list after the earlier pages when that is
    less; it shows something exactly on the pages [1 .. ceil (total / 5)],
    the pages the pagination offers for the total it is given. *)
Theorem the_page_holds_five_or_the_rest
    (toLowerCase : string → string)
    (ps : Products.State) (cs : Categories.State) :
  1 ≤ Products.page ps →
  1 ≤ Categories.page cs →
  (length (Products.dataSource toLowerCase ps)
   = Z.to_nat (Z.min 5 (Z.of_nat (Products.total toLowerCase ps) - (Products.page ps - 1) * 5))
   ∧ (Products.dataSource toLowerCase ps ≠ []
      ↔ Products.page ps ≤ Z.of_nat (Spec.pageCount (Products.total toLowerCase ps) 5)))
  ∧
  (length (Categories.dataSource toLowerCase cs)
   = Z.to_nat
       (Z.min 5 (Z.of_nat (Categories.total toLowerCase cs) - (Categories.page cs - 1) * 5))
   ∧ (Categories.dataSource toLowerCase cs ≠ []
      ↔ Categories.page cs ≤ Z.of_nat (Spec.pageCount (Categories.total toLowerCase cs) 5))).
Proof.
  intros Hp Hc.
  assert (∀ {A} (l : list A), l ≠ [] ↔ (0 < length l)%nat) as Hne.
  { intros A [|a l]; simpl; split; intros; try done; lia. }
  split.
  - unfold Products.dataSource, Products.total, Products.paged, Products.pageSize.
    split; [by apply page_length_five|].
    rewrite Hne, page_length_five, pageCount_five by done. lia.
  - unfold Categories.dataSource, Categories.total, Categories.paged,
      Categories.pageSize.
    split; [by apply page_length_five|].
    rewrite Hne, page_length_five, pageCount_five by done. lia.
Qed.

(** Seven records on page two: two rows; page three is past the two pages. *)
Lemma the_page_holds_five_or_the_rest_witness :
  1 ≤ Products.page Sample.productsState
  ∧ 1 ≤ Categories.page
          (Categories.setPage 2
             (Categories.setRows (λ _, Sample.seven) Categories.init))
  ∧ length
      (Categories.dataSource JS.toLowerCase_basic
         (Categories.setPage 2
            (Categories.setRows (λ _, Sample.seven) Categories.init)))
    = 2%nat
  ∧ Products.dataSource JS.toLowerCase_basic Sample.productsState ≠ [].
Proof.
  assert (1 ≤ Products.page Sample.productsState) as Hp by (simpl; lia).
  assert (1 ≤ Categories.page
                (Categories.setPage 2
                   (Categories.setRows (λ _, Sample.seven) Categories.init)))
    as Hc by (simpl; lia).
  destruct (the_page_holds_five_or_the_rest JS.toLowerCase_basic
              Sample.productsState
              (Categories.setPage 2
                 (Categories.setRows (λ _, Sample.seven) Categories.init))
              Hp Hc) as [[_ HP] [HC _]].
  split; [exact Hp|]. split; [exact Hc|]. split; [exact HC|].
  apply HP. vm_compute. discriminate.
Defined.
